(** * The pack-manifest builder ([tools/build_packs_manifest.py])

  A shallow embedding of the manifest builder and of the library calls it
  makes ([pathlib], [hashlib], [json], the file system), followed by the
  properties of the builder: discovery, ordering, hashing, error paths and
  the serialised document.

  Conventions.
  - A Python [str] is a list of Unicode code points ([N]); a [bytes] value
    is a list of [byte].
  - A [Path] is the list of its components below the root; the paths the
    program handles have been through [expanduser().resolve()] and are
    absolute.  Ordering and [name] are those of [PurePosixPath].
  - The file system is a finite map from paths to nodes.  The order in
    which the operating system enumerates a directory is not fixed: the
    enumeration is an argument of the functions that list a directory, and
    [iterdir] says which enumerations a file system allows. *)

From Equations Require Import Equations.
From Equations.Prop Require Import Logic.
From Stdlib Require Import ZArith Strings.Byte Strings.Ascii.
From stdpp Require Import gmap list sorting strings.

Set Warnings "-register-all".

Abbreviation str := (list N).
Abbreviation path := (list (list N)).
Abbreviation bytes := (list byte).

(** ** Python strings *)

Module Str.

(** A literal: the code points of an ASCII string. *)
Fixpoint ustr (s : string) : str :=
  match s with
  | EmptyString => []
  | String a s' => N_of_ascii a :: ustr s'
  end.

Definition eqb (s t : str) : bool := bool_decide (s = t).

(** [str.lower] on one code point.  Only the ASCII letters are folded: the
    program compares the folded suffix with [".json"], and no code point
    outside ASCII lower-cases to a string containing one of [. j s o n], so
    that comparison is the same under full Unicode case folding. *)
Definition lower_cp (c : N) : N :=
  if ((65 <=? c) && (c <=? 90))%N then (c + 32)%N else c.

Definition lower (s : str) : str := lower_cp <$> s.

(** The lower-case hexadecimal digit of [n < 16]. *)
Definition hexdigit (n : N) : N :=
  if (n <? 10)%N then (48 + n)%N else (87 + n)%N.

(** [s.rfind(c)]: the index of the last occurrence, [None] for Python's -1. *)
Fixpoint rfind (c : N) (s : str) : option nat :=
  match s with
  | [] => None
  | x :: s' =>
      match rfind c s' with
      | Some i => Some (S i)
      | None => if (x =? c)%N then Some 0 else None
      end
  end.

End Str.

(** ** Lexicographic comparison of sequences (Python's [<] on [str] and [list]) *)

Section lex.
Context {A : Type} (cmp : A → A → comparison).

Fixpoint lex_compare (xs ys : list A) : comparison :=
  match xs, ys with
  | [], [] => Eq
  | [], _ :: _ => Lt
  | _ :: _, [] => Gt
  | x :: xs', y :: ys' =>
      match cmp x y with
      | Eq => lex_compare xs' ys'
      | c => c
      end
  end.
End lex.

(** ** [pathlib] *)

Module Path.

Definition dot : N := 46.

(** [PurePath.name]: the final component, [''] for the root. *)
Definition name (p : path) : str := default [] (last p).

(** [PurePath.parent]. *)
Definition parent (p : path) : path := take (length p - 1) p.

(** [PurePath.suffix], as CPython 3.11 defines it:
    [i = name.rfind('.'); name[i:] if 0 < i < len(name) - 1 else '']. *)
Definition suffix_of (nm : str) : str :=
  match Str.rfind dot nm with
  | Some i => if (0 <? i) && (i <? length nm - 1) then drop i nm else []
  | None => []
  end.

Definition suffix (p : path) : str := suffix_of (name p).

(** [PurePosixPath.__lt__] compares the component lists, each component by
    code points. *)
Definition str_compare : str → str → comparison := lex_compare N.compare.
Definition compare : path → path → comparison := lex_compare str_compare.
Definition ltb (p q : path) : bool :=
  match compare p q with Lt => true | _ => false end.

(** [sorted] never puts [q] before [p] when [p < q]; "[p] may precede [q]"
    is [¬ (q < p)]. *)
Definition le (p q : path) : Prop := ltb q p = false.

#[export] Instance le_dec (p q : path) : Decision (le p q).
Proof. unfold le. apply _. Defined.

(** [sorted(paths)]. *)
Definition sorted (l : list path) : list path := merge_sort le l.

End Path.

(** ** The file system *)

Module Fs.

(** A regular file carries its content and, possibly, a fault: [Some k]
    makes the [k]-th operation on the file raise [OSError], counting the
    [open] as operation 0 and the [read] calls from 1.  A file that was
    removed or made unreadable after the directory was listed is a file
    with fault 0. *)
Inductive node :=
| NFile (data : bytes) (fault : option nat)
| NDir
| NOther.

Abbreviation fs := (gmap path node).

Definition is_file (f : fs) (p : path) : bool :=
  match f !! p with Some (NFile _ _) => true | _ => false end.

Definition is_dir (f : fs) (p : path) : bool :=
  match p with
  | [] => true
  | _ => match f !! p with Some NDir => true | _ => false end
  end.

Definition is_child (d p : path) : Prop := p ≠ [] ∧ Path.parent p = d.

#[export] Instance is_child_dec d p : Decision (is_child d p).
Proof. unfold is_child. apply _. Defined.

(** The entries of directory [d], in the order of the map. *)
Definition children (f : fs) (d : path) : list path :=
  filter (is_child d) (map_to_list f).*1.

(** [d.iterdir()] may yield the entries of [d] in any order. *)
Definition iterdir (f : fs) (d : path) (l : list path) : Prop :=
  l ≡ₚ children f d.

End Fs.

(** ** [hashlib.sha256]

    The hash object of [hashlib]: a chaining value, the bytes fed so far that
    do not yet fill a 64-byte block, and the number of bytes fed.  Words are
    integers in [0, 2^32) with the wrap-around written out. *)

Module SHA256.

Local Open Scope Z_scope.

Definition wrap (x : Z) : Z := x mod 2 ^ 32.
Definition add32 (x y : Z) : Z := wrap (x + y).
Definition not32 (x : Z) : Z := Z.lxor x 0xffffffff.
Definition rotr (n x : Z) : Z :=
  wrap (Z.lor (Z.shiftr x n) (Z.shiftl x (32 - n))).
Definition shr (n x : Z) : Z := Z.shiftr x n.

Definition Ch (x y z : Z) : Z := Z.lxor (Z.land x y) (Z.land (not32 x) z).
Definition Maj (x y z : Z) : Z :=
  Z.lxor (Z.lxor (Z.land x y) (Z.land x z)) (Z.land y z).
Definition bsig0 (x : Z) : Z := Z.lxor (Z.lxor (rotr 2 x) (rotr 13 x)) (rotr 22 x).
Definition bsig1 (x : Z) : Z := Z.lxor (Z.lxor (rotr 6 x) (rotr 11 x)) (rotr 25 x).
Definition ssig0 (x : Z) : Z := Z.lxor (Z.lxor (rotr 7 x) (rotr 18 x)) (shr 3 x).
Definition ssig1 (x : Z) : Z := Z.lxor (Z.lxor (rotr 17 x) (rotr 19 x)) (shr 10 x).

(** The round constants, four to a row. *)
Definition K : list Z :=
  mjoin [
    [ 0x428a2f98; 0x71374491; 0xb5c0fbcf; 0xe9b5dba5 ];
    [ 0x3956c25b; 0x59f111f1; 0x923f82a4; 0xab1c5ed5 ];
    [ 0xd807aa98; 0x12835b01; 0x243185be; 0x550c7dc3 ];
    [ 0x72be5d74; 0x80deb1fe; 0x9bdc06a7; 0xc19bf174 ];
    [ 0xe49b69c1; 0xefbe4786; 0x0fc19dc6; 0x240ca1cc ];
    [ 0x2de92c6f; 0x4a7484aa; 0x5cb0a9dc; 0x76f988da ];
    [ 0x983e5152; 0xa831c66d; 0xb00327c8; 0xbf597fc7 ];
    [ 0xc6e00bf3; 0xd5a79147; 0x06ca6351; 0x14292967 ];
    [ 0x27b70a85; 0x2e1b2138; 0x4d2c6dfc; 0x53380d13 ];
    [ 0x650a7354; 0x766a0abb; 0x81c2c92e; 0x92722c85 ];
    [ 0xa2bfe8a1; 0xa81a664b; 0xc24b8b70; 0xc76c51a3 ];
    [ 0xd192e819; 0xd6990624; 0xf40e3585; 0x106aa070 ];
    [ 0x19a4c116; 0x1e376c08; 0x2748774c; 0x34b0bcb5 ];
    [ 0x391c0cb3; 0x4ed8aa4a; 0x5b9cca4f; 0x682e6ff3 ];
    [ 0x748f82ee; 0x78a5636f; 0x84c87814; 0x8cc70208 ];
    [ 0x90befffa; 0xa4506ceb; 0xbef9a3f7; 0xc67178f2 ] ].

(** The eight working variables, also the chaining value. *)
Record regs := Regs {
  ra : Z; rb : Z; rc : Z; rd : Z; re : Z; rf : Z; rg : Z; rh : Z }.

Definition H0 : regs :=
  Regs 0x6a09e667 0xbb67ae85 0x3c6ef372 0xa54ff53a
       0x510e527f 0x9b05688c 0x1f83d9ab 0x5be0cd19.

Definition Z_of_byte (b : byte) : Z := Z.of_N (Byte.to_N b).
Definition byte_of_Z (z : Z) : byte :=
  default x00 (Byte.of_N (Z.to_N (z mod 256))).

(** Big-endian words of a block. *)
Fixpoint words_of_bytes (bs : bytes) : list Z :=
  match bs with
  | b0 :: b1 :: b2 :: b3 :: rest =>
      Z.lor (Z.shiftl (Z_of_byte b0) 24)
        (Z.lor (Z.shiftl (Z_of_byte b1) 16)
           (Z.lor (Z.shiftl (Z_of_byte b2) 8) (Z_of_byte b3)))
      :: words_of_bytes rest
  | _ => []
  end.

Definition bytes_of_word (w : Z) : bytes :=
  [ byte_of_Z (Z.shiftr w 24); byte_of_Z (Z.shiftr w 16);
    byte_of_Z (Z.shiftr w 8); byte_of_Z w ].

(** The message schedule: [n] more words after those of [w]. *)
Fixpoint schedule (n : nat) (w : list Z) : list Z :=
  match n with
  | O => w
  | S n' =>
      let t := length w in
      let at_ (k : nat) := w !!! (t - k)%nat in
      schedule n'
        (w ++ [add32 (add32 (ssig1 (at_ 2%nat)) (at_ 7%nat))
                     (add32 (ssig0 (at_ 15%nat)) (at_ 16%nat))])
  end.

Definition round (s : regs) (kw : Z * Z) : regs :=
  let t1 := add32 (add32 (add32 (rh s) (bsig1 (re s)))
                         (add32 (Ch (re s) (rf s) (rg s)) kw.1)) kw.2 in
  let t2 := add32 (bsig0 (ra s)) (Maj (ra s) (rb s) (rc s)) in
  Regs (add32 t1 t2) (ra s) (rb s) (rc s) (add32 (rd s) t1) (re s) (rf s) (rg s).

(** The compression function on one 64-byte block. *)
Definition compress (h : regs) (block : bytes) : regs :=
  let w := schedule 48 (words_of_bytes block) in
  let s := foldl round h (zip K w) in
  Regs (add32 (ra h) (ra s)) (add32 (rb h) (rb s))
       (add32 (rc h) (rc s)) (add32 (rd h) (rd s))
       (add32 (re h) (re s)) (add32 (rf h) (rf s))
       (add32 (rg h) (rg s)) (add32 (rh h) (rh s)).

(** Compress the first [n] blocks of [bs]. *)
Fixpoint absorb (n : nat) (h : regs) (bs : bytes) : regs :=
  match n with
  | O => h
  | S n' => absorb n' (compress h (take 64 bs)) (drop 64 bs)
  end.

(** The padding of a message of [len] bytes: [0x80], zeros up to 56 modulo
    64, and the length in bits as a 64-bit big-endian number. *)
Definition padding (len : nat) : bytes :=
  let bits := (8 * Z.of_nat len) mod 2 ^ 64 in
  x80 :: replicate (Z.to_nat ((55 - Z.of_nat len) mod 64)) x00
    ++ bytes_of_word (Z.shiftr bits 32) ++ bytes_of_word bits.

Definition bytes_of_regs (h : regs) : bytes :=
  bytes_of_word (ra h) ++ bytes_of_word (rb h) ++ bytes_of_word (rc h)
  ++ bytes_of_word (rd h) ++ bytes_of_word (re h) ++ bytes_of_word (rf h)
  ++ bytes_of_word (rg h) ++ bytes_of_word (rh h).

(** The digest of a complete message (FIPS 180-4, section 6.2): pad, then
    compress block after block from [H0]. *)
Definition hash (msg : bytes) : bytes :=
  let m := msg ++ padding (length msg) in
  bytes_of_regs (absorb (length m / 64)%nat H0 m).

(** The incremental object. *)
Record state := State { chain : regs; buffer : bytes; count : nat }.

(** [hashlib.sha256()]. *)
Definition init : state := State H0 [] 0.

(** [h.update(data)]. *)
Definition update (st : state) (data : bytes) : state :=
  let all := buffer st ++ data in
  let n := (length all / 64)%nat in
  State (absorb n (chain st) all) (drop (64 * n) all)
        (count st + length data).

(** [h.digest()]. *)
Definition digest (st : state) : bytes :=
  let tail := buffer st ++ padding (count st) in
  bytes_of_regs (absorb (length tail / 64)%nat (chain st) tail).

Definition hex_of_byte (b : byte) : str :=
  let n := Byte.to_N b in [Str.hexdigit (n / 16)%N; Str.hexdigit (n mod 16)%N].

Definition hex (bs : bytes) : str := mbind hex_of_byte bs.

(** [h.hexdigest()]. *)
Definition hexdigest (st : state) : str := hex (digest st).

(** A [bytes] literal. *)
Fixpoint bstr (s : string) : bytes :=
  match s with
  | EmptyString => []
  | String a s' => byte_of_ascii a :: bstr s'
  end.

End SHA256.

#[global] Arguments SHA256.compress : simpl never.
#[global] Arguments SHA256.absorb : simpl never.
#[global] Arguments SHA256.padding : simpl never.
#[global] Arguments SHA256.hash : simpl never.
#[global] Arguments SHA256.update : simpl never.
#[global] Arguments SHA256.digest : simpl never.

(** ** Reading files *)

Module File.
Import Fs.

(** An open binary file: the bytes not yet read, and the number of
    operations left before the fault, if the file has one. *)
Record handle := Handle { rest : bytes; fuse : option nat }.

(** [path.open("rb")]; [None] stands for the [OSError] raised when the path
    is not an openable regular file. *)
Definition open_rb (f : fs) (p : path) : option handle :=
  match f !! p with
  | Some (NFile data fault) =>
      match fault with
      | Some O => None
      | _ => Some (Handle data (pred <$> fault))
      end
  | _ => None
  end.

(** [f.read(n)]: up to [n] bytes, the empty [bytes] at the end of the
    file; [None] for an [OSError]. *)
Definition read (n : nat) (h : handle) : option (bytes * handle) :=
  match fuse h with
  | Some O => None
  | _ => Some (take n (rest h), Handle (drop n (rest h)) (pred <$> fuse h))
  end.

End File.

(** ** [json.dump(obj, f, indent=2, ensure_ascii=True)] *)

Module Json.
Import Str.

(** The values the manifest is made of.  A [dict] keeps insertion order. *)
Inductive value :=
| JStr (s : str)
| JList (items : list value)
| JDict (items : list (str * value)).

Definition bslash : N := 92.
Definition dquote : N := 34.

(** ['{0:04x}'.format(n)] for [n < 0x10000]. *)
Definition hex4 (n : N) : str :=
  [ hexdigit (n / 4096 mod 16)%N; hexdigit (n / 256 mod 16)%N;
    hexdigit (n / 16 mod 16)%N; hexdigit (n mod 16)%N ].

Definition uescape (n : N) : str := bslash :: ustr "u" ++ hex4 n.

(** The replacement of one code point in [py_encode_basestring_ascii]:
    the short escapes, printable ASCII unchanged, [\uXXXX] below 0x10000
    and a surrogate pair above. *)
Definition escape_cp (c : N) : str :=
  if (c =? 34)%N then [bslash; dquote]
  else if (c =? 92)%N then [bslash; bslash]
  else if (c =? 8)%N then bslash :: ustr "b"
  else if (c =? 12)%N then bslash :: ustr "f"
  else if (c =? 10)%N then bslash :: ustr "n"
  else if (c =? 13)%N then bslash :: ustr "r"
  else if (c =? 9)%N then bslash :: ustr "t"
  else if ((32 <=? c) && (c <=? 126))%N then [c]
  else if (c <? 0x10000)%N then uescape c
  else
    let n := (c - 0x10000)%N in
    uescape (N.lor 0xd800 (N.land (N.shiftr n 10) 0x3ff))
    ++ uescape (N.lor 0xdc00 (N.land n 0x3ff)).

Definition encode_str (s : str) : str :=
  dquote :: mbind escape_cp s ++ [dquote].

(** ['\n' + indent * level] with [indent = 2] spaces. *)
Definition newline_indent (level : nat) : str :=
  10%N :: replicate (2 * level) 32%N.

(** [_iterencode] with [item_separator = ','], [key_separator = ': ']. *)
Fixpoint encode (level : nat) (v : value) : str :=
  match v with
  | JStr s => encode_str s
  | JList [] => ustr "[]"
  | JList (x :: xs) =>
      ustr "[" ++ newline_indent (S level) ++ encode (S level) x
      ++ (fix more (l : list value) : str :=
            match l with
            | [] => []
            | y :: l' =>
                ustr "," ++ newline_indent (S level) ++ encode (S level) y
                ++ more l'
            end) xs
      ++ newline_indent level ++ ustr "]"
  | JDict [] => ustr "{}"
  | JDict ((k, x) :: kvs) =>
      ustr "{" ++ newline_indent (S level)
      ++ encode_str k ++ ustr ": " ++ encode (S level) x
      ++ (fix more (l : list (str * value)) : str :=
            match l with
            | [] => []
            | (k', y) :: l' =>
                ustr "," ++ newline_indent (S level)
                ++ encode_str k' ++ ustr ": " ++ encode (S level) y
                ++ more l'
            end) kvs
      ++ newline_indent level ++ ustr "}"
  end.

Definition dumps (v : value) : str := encode 0 v.

(** The items of a list after the first, each behind its separator: the
    inner loop of [encode] on a list. *)
Definition encode_more (level : nat) : list value → str :=
  fix more (l : list value) : str :=
    match l with
    | [] => []
    | y :: l' =>
        ustr "," ++ newline_indent (S level) ++ encode (S level) y ++ more l'
    end.

(** [d[key]] on a dict value. *)
Fixpoint assoc (key : str) (items : list (str * value)) : option value :=
  match items with
  | [] => None
  | (k, v) :: items' => if Str.eqb k key then Some v else assoc key items'
  end.

Definition get_str (key : str) (v : value) : option str :=
  match v with
  | JDict items =>
      match assoc key items with Some (JStr s) => Some s | _ => None end
  | _ => None
  end.

(** The UTF-8 encoding of a text file's content.  [dumps] produces ASCII
    only, so the one-byte case is the one that is used. *)
Definition byte_of_N (n : N) : byte := default x00 (Byte.of_N (n mod 256)%N).

Definition utf8_cp (c : N) : bytes :=
  if (c <? 0x80)%N then [byte_of_N c]
  else if (c <? 0x800)%N then
    [byte_of_N (N.lor 0xc0 (N.shiftr c 6));
     byte_of_N (N.lor 0x80 (N.land c 0x3f))]
  else if (c <? 0x10000)%N then
    [byte_of_N (N.lor 0xe0 (N.shiftr c 12));
     byte_of_N (N.lor 0x80 (N.land (N.shiftr c 6) 0x3f));
     byte_of_N (N.lor 0x80 (N.land c 0x3f))]
  else
    [byte_of_N (N.lor 0xf0 (N.shiftr c 18));
     byte_of_N (N.lor 0x80 (N.land (N.shiftr c 12) 0x3f));
     byte_of_N (N.lor 0x80 (N.land (N.shiftr c 6) 0x3f));
     byte_of_N (N.lor 0x80 (N.land c 0x3f))].

Definition utf8 (s : str) : bytes := mbind utf8_cp s.

End Json.

(** ** The program *)

Module Manifest.
Import Str Fs File Json.

(** What the program can raise.  The two [SystemExit] cases are those of
    [main]; an [OSError] propagates from the library call that raised it. *)
Inductive exn :=
| OSError_read (p : path)
| OSError_write (p : path)
| SystemExit_assets_dir (d : path)
| SystemExit_no_packs.

(** The size of the chunks [sha256_hex] reads. *)
Definition chunk_size : nat := N.to_nat 8192.

(** [for chunk in iter(lambda: f.read(8192), b''): h.update(chunk)]: read
    until the empty chunk that marks the end of the file. *)
Equations? read_chunks (fh : handle) (h : SHA256.state) :
    option SHA256.state by wf (length (rest fh)) lt :=
read_chunks fh h with inspect (read chunk_size fh) := {
  | exist _ None _ => None
  | exist _ (Some (nil, _)) _ => Some h
  | exist _ (Some (cons b chunk, fh')) Hread =>
      read_chunks fh' (SHA256.update h (cons b chunk)) }.
Proof.
  assert (E : b :: chunk = take chunk_size (rest fh)
              ∧ rest fh' = drop chunk_size (rest fh)).
  { unfold read in Hread.
    destruct (fuse fh) as [[|k]|]; try discriminate;
      injection Hread as <- <-; auto. }
  destruct E as [E1 E2]. rewrite E2, length_drop.
  assert (0 < chunk_size) by (unfold chunk_size; lia).
  destruct (rest fh); [rewrite take_nil in E1; discriminate|].
  simpl; lia.
Qed.

#[global] Arguments read_chunks : simpl never.

(** [sha256_hex(path)] *)
Definition sha256_hex (f : fs) (p : path) : exn + str :=
  match open_rb f p with
  | None => inl (OSError_read p)
  | Some fh =>
      match read_chunks fh SHA256.init with
      | None => inl (OSError_read p)
      | Some h => inr (SHA256.hexdigest h)
      end
  end.

(** The body of the loop of [iter_json_files], over the sorted entries. *)
Fixpoint iter_json_files_loop (f : fs) (excludes : gset str)
    (ps : list path) : list path :=
  match ps with
  | [] => []
  | p :: ps' =>
      if negb (is_file f p) then iter_json_files_loop f excludes ps'
      else if negb (Str.eqb (lower (Path.suffix p)) (ustr ".json")) then
        iter_json_files_loop f excludes ps'
      else if bool_decide (Path.name p ∈ excludes) then
        iter_json_files_loop f excludes ps'
      else p :: iter_json_files_loop f excludes ps'
  end.

(** [iter_json_files(assets_dir, excludes)]; [listing] is what
    [assets_dir.iterdir()] yields. *)
Definition iter_json_files (f : fs) (listing : list path)
    (excludes : gset str) : list path :=
  iter_json_files_loop f excludes (Path.sorted listing).

(** [{"fileName": path.name, "sha256": sha256_hex(path)}] *)
Definition pack (name hash : str) : value :=
  JDict [(ustr "fileName", JStr name); (ustr "sha256", JStr hash)].

Fixpoint build_manifest_loop (f : fs) (ps : list path) (packs : list value) :
    exn + list value :=
  match ps with
  | [] => inr packs
  | p :: ps' =>
      match sha256_hex f p with
      | inl e => inl e
      | inr h => build_manifest_loop f ps' (packs ++ [pack (Path.name p) h])
      end
  end.

(** [build_manifest(assets_dir, excludes)] *)
Definition build_manifest (f : fs) (listing : list path)
    (excludes : gset str) : exn + list value :=
  build_manifest_loop f (iter_json_files f listing excludes) [].

(** [p.mkdir(parents=True, exist_ok=True)]: [todo] are the components still
    to visit below [done]. *)
Fixpoint mkdir_parents (done todo : path) (f : fs) : option exn * fs :=
  match todo with
  | [] => (None, f)
  | c :: todo' =>
      let q := done ++ [c] in
      match f !! q with
      | None => mkdir_parents q todo' (<[q := NDir]> f)
      | Some NDir => mkdir_parents q todo' f
      | Some _ => (Some (OSError_write q), f)
      end
  end.

(** [with p.open("w", encoding="utf-8", newline="\n") as f: f.write(text)] *)
Definition write_text (p : path) (text : str) (f : fs) : exn + fs :=
  if is_dir f p then inl (OSError_write p)
  else
    match f !! p with
    | Some NOther => inl (OSError_write p)
    | _ => inr (<[p := NFile (utf8 text) None]> f)
    end.

(** The parsed and resolved command line. *)
Record args := Args {
  assets_dir : path;
  output : path;
  exclude : list str }.

(** [excludes = {"packs.json"} | set(args.exclude)] *)
Definition excludes_of (a : args) : gset str :=
  {[ ustr "packs.json" ]} ∪ list_to_set (exclude a).

(** What is serialised: [json.dump({"packs": packs}, ...)] and then
    [f.write("\n")]. *)
Definition document (packs : list value) : str :=
  dumps (JDict [(ustr "packs", JList packs)]) ++ [10%N].

(** [main()]: the outcome (an exception, or the number of packs reported on
    standard output before [return 0]) and the file system it leaves. *)
Definition main (a : args) (listing : list path) (f : fs) :
    (exn + nat) * fs :=
  if negb (is_dir f (assets_dir a)) then
    (inl (SystemExit_assets_dir (assets_dir a)), f)
  else
    match build_manifest f listing (excludes_of a) with
    | inl e => (inl e, f)
    | inr [] => (inl SystemExit_no_packs, f)
    | inr packs =>
        match mkdir_parents [] (Path.parent (output a)) f with
        | (Some e, f1) => (inl e, f1)
        | (None, f1) =>
            match write_text (output a) (document packs) f1 with
            | inl e => (inl e, f1)
            | inr f2 => (inr (length packs), f2)
            end
        end
    end.

(** The exit status of the process: [raise SystemExit(main())] gives 0 when
    [main] returns, an uncaught exception or [SystemExit(message)] gives 1. *)
Definition exit_status (r : exn + nat) : Z :=
  match r with inr _ => 0%Z | inl _ => 1%Z end.

End Manifest.

(** ** Vocabulary of the statements *)

Module Spec.
Import Str Fs Json Manifest.

(** A name with a non-empty stem followed by [.json] in any letter case. *)
Definition json_name (n : str) : Prop :=
  ∃ stem ext, n = stem ++ ext ∧ stem ≠ [] ∧ lower ext = ustr ".json".

(** The test an entry passes to be discovered. *)
Definition eligible (f : fs) (excludes : gset str) (p : path) : Prop :=
  is_file f p = true
  ∧ lower (Path.suffix p) = ustr ".json"
  ∧ Path.name p ∉ excludes.

#[export] Instance eligible_dec f excludes p : Decision (eligible f excludes p).
Proof. unfold eligible. apply _. Defined.

(** The [fileName] of each record of a manifest. *)
Definition fileNames (packs : list value) : list (option str) :=
  get_str (ustr "fileName") <$> packs.

(** Strict code-point order on names. *)
Definition name_lt (m n : str) : Prop := Path.str_compare m n = Lt.

(** A lower-case hexadecimal digit: [0-9] or [a-f]. *)
Definition is_lower_hex (c : N) : Prop :=
  (48 ≤ c ≤ 57)%N ∨ (97 ≤ c ≤ 102)%N.

(** [r] is the record of the regular file at [p]: its name and the
    hexadecimal SHA-256 digest of its content. *)
Definition record_for (f : fs) (p : path) (r : value) : Prop :=
  ∃ data fault,
    f !! p = Some (NFile data fault)
    ∧ r = pack (Path.name p) (SHA256.hex (SHA256.hash data)).

(** The document as the specification lays it out: one object with the key
    [packs], an array of objects with [fileName] then [sha256], two spaces
    per level, and a final newline. *)
Definition quoted (s : str) : str := dquote :: s ++ [dquote].

Definition record_text (r : value) : str :=
  match get_str (ustr "fileName") r, get_str (ustr "sha256") r with
  | Some name, Some hash =>
      ustr "    {" ++ [10%N]
      ++ ustr "      " ++ quoted (ustr "fileName") ++ ustr ": "
      ++ encode_str name ++ ustr "," ++ [10%N]
      ++ ustr "      " ++ quoted (ustr "sha256") ++ ustr ": "
      ++ quoted hash ++ [10%N]
      ++ ustr "    }"
  | _, _ => []
  end.

Definition records_text (rs : list value) : str :=
  match rs with
  | [] => []
  | r :: rs' =>
      record_text r ++ mbind (λ r', ustr "," ++ [10%N] ++ record_text r') rs'
  end.

Definition manifest_text (rs : list value) : str :=
  ustr "{" ++ [10%N]
  ++ ustr "  " ++ quoted (ustr "packs") ++ ustr ": [" ++ [10%N]
  ++ records_text rs ++ [10%N]
  ++ ustr "  ]" ++ [10%N]
  ++ ustr "}" ++ [10%N].

Definition ascii (c : N) : Prop := (c < 128)%N.

(** The failures the specification names, and how the exceptions of the
    program map to them. *)
Inductive failure :=
| DirectoryNotFound
| UnreadableFile
| EmptyAssetSet
| WriteFailure.

Definition classify (e : exn) : failure :=
  match e with
  | OSError_read _ => UnreadableFile
  | OSError_write _ => WriteFailure
  | SystemExit_assets_dir _ => DirectoryNotFound
  | SystemExit_no_packs => EmptyAssetSet
  end.

(** A record as [build_manifest] makes them. *)
Definition hex_pack (r : value) : Prop :=
  ∃ name hash, r = pack name hash ∧ Forall is_lower_hex hash.

(** [q] is one of the directories that [p.parent.mkdir(parents=True)]
    visits: a non-empty prefix of the parent of [p]. *)
Definition ancestor_of (p q : path) : Prop :=
  q ≠ [] ∧ q `prefix_of` Path.parent p.


(** The file at [p] can be hashed. *)
Definition hashable (f : fs) (p : path) : Prop :=
  ∃ h, sha256_hex f p = inr h.

(** Printable ASCII, and the number of newline characters of a text. *)
Definition printable (c : N) : Prop := (32 ≤ c ≤ 126)%N.

Definition newlines (s : str) : nat := length (filter (λ c, c = 10%N) s).

(** [r] is the record [build_manifest] makes for the file at [p]. *)
Definition built (f : fs) (p : path) (r : value) : Prop :=
  ∃ h, sha256_hex f p = inr h ∧ r = pack (Path.name p) h.

(** The record is not one of a file named in [extra]. *)
Definition kept (extra : list str) (r : value) : Prop :=
  match get_str (ustr "fileName") r with
  | Some nm => nm ∉ extra
  | None => True
  end.

#[export] Instance kept_dec extra r : Decision (kept extra r).
Proof. unfold kept. destruct (get_str _ r); apply _. Defined.

(** The record named [nm] replaced by one with digest [h]. *)
Definition replace_record (nm h : str) (r : value) : value :=
  if decide (get_str (ustr "fileName") r = Some nm) then pack nm h else r.


(** A character of the document: printable ASCII or the newline. *)
Definition layout_char (c : N) : Prop := printable c ∨ c = 10%N.

(** The hash object [st] has been fed exactly the bytes [d]. *)
Definition absorbed (st : SHA256.state) (d : bytes) : Prop :=
  SHA256.count st = length d
  ∧ SHA256.chain st = SHA256.absorb (length d / 64) SHA256.H0 d
  ∧ SHA256.buffer st = drop (64 * (length d / 64)) d.

End Spec.

(** ** Concrete directories and command lines *)

Module Scenario.
Import Str Fs Json Manifest.

Definition assets : path := [ustr "assets"].

Definition entry (name : string) : path := assets ++ [ustr name].

Definition empty_object : bytes := SHA256.bstr "{}".

(** The bytes [{"x":1}]. *)
Definition x_object : bytes :=
  SHA256.bstr "{" ++ [x22] ++ SHA256.bstr "x" ++ [x22] ++ SHA256.bstr ":1}".

Definition sha_empty_object : str :=
  ustr "44136fa355b3678a1146ad16f7e8649e94fb4fc21fe77e8310c060f61caaff8a".

Definition sha_x_object : str :=
  ustr "5041bf1f713df204784353e82f6a4a535931cb64f1f4b4a5aeaffcb720918b22".

(** [a.json] and [b.json]. *)
Definition fs_two : fs :=
  <[ assets := NDir ]>
    (<[ entry "a.json" := NFile empty_object None ]>
       (<[ entry "b.json" := NFile x_object None ]> ∅)).

(** Files of every kind: a directory with a [.json] name, a text file, a
    manifest of an earlier run, an upper-case variant of its name, and an
    upper-case extension. *)
Definition fs_mixed : fs :=
  <[ entry "dir.json" := NDir ]>
    (<[ entry "notes.txt" := NFile empty_object None ]>
       (<[ entry "packs.json" := NFile empty_object None ]>
          (<[ entry "PACKS.JSON" := NFile empty_object None ]>
             (<[ entry "c.JSON" := NFile x_object None ]> fs_two)))).

(** Only a file with another extension. *)
Definition fs_notes : fs :=
  <[ assets := NDir ]>
    (<[ entry "notes.txt" := NFile empty_object None ]> ∅).

(** [b.json] was removed after the directory was listed. *)
Definition fs_race : fs :=
  <[ entry "b.json" := NFile x_object (Some 0) ]> fs_two.

(** The default command line, and one with another output name in the
    assets directory. *)
Definition args_default : args := Args assets (entry "packs.json") [].
Definition args_custom : args := Args assets (entry "manifest.json") [].
Definition args_elsewhere : args :=
  Args assets [ustr "build"; ustr "out"; ustr "index.json"] [].

(** A text literal in which ['] stands for the double quote and [|] for
    the newline. *)
Fixpoint text (s : string) : str :=
  match s with
  | EmptyString => []
  | String a s' =>
      let c := N_of_ascii a in
      (if (c =? 39)%N then 34%N else if (c =? 124)%N then 10%N else c)
      :: text s'
  end.

Definition packs_two : list value :=
  [ pack (ustr "a.json") sha_empty_object;
    pack (ustr "b.json") sha_x_object ].

Definition packs_mixed : list value :=
  [ pack (ustr "PACKS.JSON") sha_empty_object;
    pack (ustr "a.json") sha_empty_object;
    pack (ustr "b.json") sha_x_object;
    pack (ustr "c.JSON") sha_x_object ].

(** The default command line with [a.json] excluded by the caller. *)
Definition args_exclude_a : args :=
  Args assets (entry "packs.json") [ustr "a.json"].

End Scenario.

(** * Properties *)

(** ** Lexicographic comparison is a total order when the comparison of the
    elements is one *)

Section lex_facts.
Context {A : Type} (cmp : A → A → comparison).
Hypothesis cmp_eq : ∀ x y, cmp x y = Eq ↔ x = y.
Hypothesis cmp_antisym : ∀ x y, cmp y x = CompOpp (cmp x y).
Hypothesis cmp_trans : ∀ x y z, cmp x y = Lt → cmp y z = Lt → cmp x z = Lt.

Lemma lex_compare_eq xs ys : lex_compare cmp xs ys = Eq ↔ xs = ys.
Proof.
  revert ys. induction xs as [|x xs IH]; intros [|y ys]; simpl; try done.
  destruct (cmp x y) eqn:E.
  - apply cmp_eq in E as ->. rewrite IH. split; congruence.
  - split; [done|]. intros [= -> _].
    rewrite (proj2 (cmp_eq y y) eq_refl) in E. done.
  - split; [done|]. intros [= -> _].
    rewrite (proj2 (cmp_eq y y) eq_refl) in E. done.
Qed.

Lemma lex_compare_antisym xs ys :
  lex_compare cmp ys xs = CompOpp (lex_compare cmp xs ys).
Proof.
  revert ys. induction xs as [|x xs IH]; intros [|y ys]; simpl; try done.
  rewrite (cmp_antisym x y). destruct (cmp x y); simpl; auto.
Qed.

Lemma lex_compare_trans xs ys zs :
  lex_compare cmp xs ys = Lt → lex_compare cmp ys zs = Lt →
  lex_compare cmp xs zs = Lt.
Proof.
  revert ys zs. induction xs as [|x xs IH]; intros [|y ys] [|z zs]; simpl;
    try done.
  destruct (cmp x y) eqn:Exy; try done.
  - apply cmp_eq in Exy as ->. destruct (cmp y z); eauto.
  - intros _. destruct (cmp y z) eqn:Eyz; try done.
    + apply cmp_eq in Eyz as ->. by rewrite Exy.
    + by rewrite (cmp_trans _ _ _ Exy Eyz).
Qed.

End lex_facts.

(** ** The order of paths *)

Module PathFacts.
Import Path.

Lemma N_compare_trans (x y z : N) :
  (x ?= y)%N = Lt → (y ?= z)%N = Lt → (x ?= z)%N = Lt.
Proof. rewrite !N.compare_lt_iff. lia. Qed.

Lemma str_compare_eq (s t : str) : str_compare s t = Eq ↔ s = t.
Proof. apply lex_compare_eq, N.compare_eq_iff. Qed.

Lemma str_compare_antisym (s t : str) :
  str_compare t s = CompOpp (str_compare s t).
Proof. apply lex_compare_antisym, N.compare_antisym. Qed.

Lemma str_compare_trans (s t u : str) :
  str_compare s t = Lt → str_compare t u = Lt → str_compare s u = Lt.
Proof.
  apply (lex_compare_trans N.compare N.compare_eq_iff N_compare_trans).
Qed.

Lemma compare_eq (p q : path) : compare p q = Eq ↔ p = q.
Proof. apply lex_compare_eq, str_compare_eq. Qed.

Lemma compare_antisym (p q : path) : compare q p = CompOpp (compare p q).
Proof. apply lex_compare_antisym, str_compare_antisym. Qed.

Lemma compare_trans (p q r : path) :
  compare p q = Lt → compare q r = Lt → compare p r = Lt.
Proof.
  apply (lex_compare_trans str_compare str_compare_eq str_compare_trans).
Qed.

Lemma le_compare (p q : path) : le p q ↔ compare p q ≠ Gt.
Proof.
  unfold le, ltb. rewrite (compare_antisym p q).
  destruct (compare p q); simpl; naive_solver.
Qed.

#[export] Instance le_total : Total le.
Proof.
  intros p q. rewrite !le_compare, (compare_antisym p q).
  destruct (compare p q); simpl; auto.
Qed.

#[export] Instance le_antisymm : AntiSymm (=) le.
Proof.
  intros p q. rewrite !le_compare, (compare_antisym p q). intros H1 H2.
  apply compare_eq. destruct (compare p q); simpl in *; congruence.
Qed.

#[export] Instance le_trans : Transitive le.
Proof.
  intros p q r. rewrite !le_compare. intros H1 H2.
  destruct (compare p q) eqn:Epq; [| |done].
  - by apply compare_eq in Epq as ->.
  - destruct (compare q r) eqn:Eqr; [| |done].
    + by apply compare_eq in Eqr as <-; rewrite Epq.
    + by rewrite (compare_trans _ _ _ Epq Eqr).
Qed.

Lemma sorted_perm (l : list path) : sorted l ≡ₚ l.
Proof. apply merge_sort_Permutation. Qed.

Lemma sorted_sorted (l : list path) : StronglySorted le (sorted l).
Proof. apply StronglySorted_merge_sort; apply _. Qed.

(** The result of [sorted] does not depend on the order of its input. *)
Lemma sorted_order_invariant (l1 l2 : list path) :
  l1 ≡ₚ l2 → sorted l1 = sorted l2.
Proof.
  intros H. apply (StronglySorted_unique le); auto using sorted_sorted.
  by rewrite !sorted_perm.
Qed.

(** Entries of one directory are ordered by their names. *)
Lemma compare_same_parent (d : path) (m n : str) :
  compare (d ++ [m]) (d ++ [n]) = str_compare m n.
Proof.
  induction d as [|c d IH]; simpl.
  - by destruct (str_compare m n).
  - by rewrite (proj2 (str_compare_eq c c) eq_refl).
Qed.

Lemma child_split (p : path) : p ≠ [] → p = parent p ++ [name p].
Proof.
  intros Hp. destruct (exists_last Hp) as (d & n & ->).
  unfold parent, name. rewrite last_snoc, length_app; simpl.
  replace (length d + 1 - 1) with (length d) by lia.
  by rewrite take_app_length.
Qed.

End PathFacts.

(** ** Names and suffixes *)

Module StrFacts.
Import Str Path.

Lemma lower_cp_dot (c : N) : (lower_cp c =? dot)%N = (c =? dot)%N.
Proof.
  unfold lower_cp, dot.
  destruct ((65 <=? c) && (c <=? 90))%N eqn:E; [|done].
  apply andb_true_iff in E as [H1%N.leb_le H2%N.leb_le].
  transitivity false; [|symmetry]; apply N.eqb_neq; lia.
Qed.

Lemma rfind_lower (s : str) : rfind dot (lower s) = rfind dot s.
Proof.
  induction s as [|c s IH]; [done|].
  change (lower (c :: s)) with (lower_cp c :: lower s). simpl.
  by rewrite IH, lower_cp_dot.
Qed.

Lemma rfind_app (c : N) (s t : str) :
  rfind c (s ++ t) =
  match rfind c t with
  | Some i => Some (length s + i)
  | None => rfind c s
  end.
Proof.
  induction s as [|x s IH]; simpl.
  - by destruct (rfind c t).
  - rewrite IH. by destruct (rfind c t).
Qed.

(** Folding the case of a name folds the case of its suffix. *)
Lemma suffix_of_lower (n : str) : suffix_of (lower n) = lower (suffix_of n).
Proof.
  unfold suffix_of. rewrite rfind_lower.
  destruct (rfind dot n) as [i|]; [|done].
  unfold lower. rewrite length_fmap.
  destruct ((0 <? i) && (i <? length n - 1)); [|done].
  by rewrite fmap_drop.
Qed.

(** The suffix test of the program is the extension test of the
    specification. *)
Lemma suffix_json (n : str) :
  lower (suffix_of n) = ustr ".json" ↔ Spec.json_name n.
Proof.
  split.
  - unfold suffix_of. destruct (rfind dot n) as [i|] eqn:Hi; [|done].
    destruct ((0 <? i) && (i <? length n - 1)) eqn:Hb; [|done].
    apply andb_true_iff in Hb as [H1%Nat.ltb_lt H2%Nat.ltb_lt].
    intros Hl. exists (take i n), (drop i n).
    rewrite take_drop. split_and!; [done| |done].
    intros Ht%(f_equal length). rewrite length_take in Ht. simpl in Ht. lia.
  - intros (stem & ext & -> & Hstem & Hext).
    assert (Hlen : length ext = 5).
    { apply (f_equal length) in Hext. unfold lower in Hext.
      by rewrite length_fmap in Hext. }
    assert (Hr : rfind dot ext = Some 0).
    { by rewrite <- rfind_lower, Hext. }
    unfold suffix_of. rewrite rfind_app, Hr, Nat.add_0_r, length_app, Hlen.
    destruct stem as [|c stem]; [done|]. simpl length.
    replace (0 <? S (length stem)) with true by (symmetry; apply Nat.ltb_lt; lia).
    replace (S (length stem) <? S (length stem) + 5 - 1) with true
      by (symmetry; apply Nat.ltb_lt; lia).
    simpl andb. cbv iota.
    change (c :: stem ++ ext) with ((c :: stem) ++ ext).
    replace (S (length stem)) with (length (c :: stem)) by done.
    by rewrite drop_app_length.
Qed.

End StrFacts.

(** ** Directory listings *)

Module FsFacts.
Import Path Fs PathFacts.

Lemma elem_of_children (f : fs) (d p : path) :
  p ∈ children f d ↔ is_Some (f !! p) ∧ is_child d p.
Proof.
  unfold children. rewrite list_elem_of_filter, list_elem_of_fmap.
  split.
  - intros [Hc ([q x] & -> & Hq%elem_of_map_to_list)]. eauto.
  - intros [[x Hx] Hc]. split; [done|].
    exists (p, x). split; [done|]. by apply elem_of_map_to_list.
Qed.

Lemma NoDup_children (f : fs) (d : path) : NoDup (children f d).
Proof. apply NoDup_filter, NoDup_fst_map_to_list. Qed.

Lemma is_child_split (d p : path) : is_child d p → p = d ++ [name p].
Proof. intros [Hp <-]. by apply child_split. Qed.

Lemma iterdir_elem_of (f : fs) (d : path) (l : list path) (p : path) :
  iterdir f d l → p ∈ l ↔ is_Some (f !! p) ∧ is_child d p.
Proof. intros ->. apply elem_of_children. Qed.

Lemma iterdir_NoDup (f : fs) (d : path) (l : list path) :
  iterdir f d l → NoDup l.
Proof. intros ->. apply NoDup_children. Qed.

Lemma iterdir_children (f : fs) (d : path) : iterdir f d (children f d).
Proof. unfold iterdir. reflexivity. Qed.

End FsFacts.

(** ** Discovery *)

Section sorted_filter.
Context {A : Type} (R : relation A) (P : A → Prop) `{∀ x, Decision (P x)}.

Lemma StronglySorted_filter (l : list A) :
  StronglySorted R l → StronglySorted R (filter P l).
Proof.
  induction 1 as [|x l Hl IH Hx]; [constructor|].
  rewrite filter_cons. destruct (decide (P x)); [|done].
  constructor; [done|]. apply Forall_forall.
  intros y [_ Hy]%list_elem_of_filter. rewrite Forall_forall in Hx. auto.
Qed.
End sorted_filter.

Module Discovery.
Import Str Path Fs Json Manifest Spec PathFacts FsFacts.

Lemma iter_json_files_loop_filter f ex ps :
  iter_json_files_loop f ex ps = filter (eligible f ex) ps.
Proof.
  induction ps as [|p ps IH]; [done|]. simpl. rewrite filter_cons, <- IH.
  unfold eligible, eqb. destruct (decide _) as [(H1 & H2 & H3)|Hn].
  - by rewrite H1, bool_decide_eq_true_2, bool_decide_eq_false_2.
  - destruct (is_file f p); simpl; [|done].
    destruct (bool_decide (lower _ = _)) eqn:E1; simpl; [|done].
    destruct (bool_decide (name p ∈ ex)) eqn:E2; simpl; [done|].
    apply bool_decide_eq_true in E1. apply bool_decide_eq_false in E2.
    by destruct Hn.
Qed.

Lemma elem_of_iter_json_files f l ex p :
  p ∈ iter_json_files f l ex ↔ p ∈ l ∧ eligible f ex p.
Proof.
  unfold iter_json_files.
  rewrite iter_json_files_loop_filter, list_elem_of_filter, sorted_perm.
  tauto.
Qed.

Lemma iter_json_files_sorted f l ex :
  StronglySorted le (iter_json_files f l ex).
Proof.
  unfold iter_json_files. rewrite iter_json_files_loop_filter.
  apply StronglySorted_filter, sorted_sorted.
Qed.

Lemma iter_json_files_order_invariant f l1 l2 ex :
  l1 ≡ₚ l2 → iter_json_files f l1 ex = iter_json_files f l2 ex.
Proof.
  intros H. unfold iter_json_files. by rewrite (sorted_order_invariant l1 l2).
Qed.

Lemma iter_json_files_NoDup f l ex :
  NoDup l → NoDup (iter_json_files f l ex).
Proof.
  intros H. unfold iter_json_files. rewrite iter_json_files_loop_filter.
  apply NoDup_filter. by rewrite sorted_perm.
Qed.

(** Sorted distinct entries of one directory have strictly increasing
    names. *)
Lemma names_sorted (d : path) (l : list path) :
  Forall (is_child d) l → NoDup l → StronglySorted le l →
  StronglySorted name_lt (name <$> l).
Proof.
  intros Hd Hn Hs. induction Hs as [|p l Hl IH Hp]; [constructor|].
  apply Forall_cons in Hd as [Hpd Hd]. apply NoDup_cons in Hn as [Hpl Hn].
  rewrite fmap_cons. constructor; [by apply IH|].
  apply Forall_fmap, Forall_forall. intros q Hq. simpl.
  rewrite Forall_forall in Hp, Hd.
  specialize (Hp q Hq). specialize (Hd q Hq).
  apply is_child_split in Hpd, Hd. unfold name_lt.
  rewrite <- (compare_same_parent d). rewrite <- Hpd, <- Hd.
  apply le_compare in Hp.
  destruct (compare p q) eqn:E; [|done|done].
  apply compare_eq in E as ->. done.
Qed.

Lemma iter_json_files_children f d l ex :
  iterdir f d l → Forall (is_child d) (iter_json_files f l ex).
Proof.
  intros Hl. apply Forall_forall. intros p [Hp _]%elem_of_iter_json_files.
  by apply (iterdir_elem_of f d l p Hl) in Hp as [_ ?].
Qed.

Lemma iter_json_files_names_sorted f d l ex :
  iterdir f d l → StronglySorted name_lt (name <$> iter_json_files f l ex).
Proof.
  intros Hl. apply (names_sorted d).
  - by apply iter_json_files_children.
  - eapply iter_json_files_NoDup, iterdir_NoDup, Hl.
  - apply iter_json_files_sorted.
Qed.

Lemma name_lt_irrefl (n : str) : ¬ name_lt n n.
Proof.
  unfold name_lt. by rewrite (proj2 (str_compare_eq n n) eq_refl).
Qed.

Lemma StronglySorted_name_lt_NoDup (ns : list str) :
  StronglySorted name_lt ns → NoDup ns.
Proof.
  induction 1 as [|n ns Hs IH Hn]; constructor; [|done].
  intros Hin. rewrite Forall_forall in Hn.
  by apply (name_lt_irrefl n), Hn.
Qed.

End Discovery.

(** ** The incremental hash computes the hash of the whole message *)

Module HashFacts.
Import Str SHA256 File Manifest Spec.

Lemma absorb_split (n m : nat) (h : regs) (bs : bytes) :
  absorb (n + m) h bs = absorb m (absorb n h bs) (drop (64 * n) bs).
Proof.
  revert h bs. induction n as [|n IH]; intros h bs.
  - by rewrite Nat.mul_0_r, drop_0.
  - change (absorb (S n + m) h bs)
      with (absorb (n + m) (compress h (take 64 bs)) (drop 64 bs)).
    rewrite IH, drop_drop.
    replace (64 + 64 * n) with (64 * S n) by lia. done.
Qed.

Lemma absorb_app (n : nat) (h : regs) (bs cs : bytes) :
  64 * n ≤ length bs → absorb n h (bs ++ cs) = absorb n h bs.
Proof.
  revert h bs. induction n as [|n IH]; intros h bs Hlen; [done|].
  change (absorb (S n) h (bs ++ cs))
    with (absorb n (compress h (take 64 (bs ++ cs))) (drop 64 (bs ++ cs))).
  change (absorb (S n) h bs)
    with (absorb n (compress h (take 64 bs)) (drop 64 bs)).
  rewrite take_app_le, drop_app_le by lia.
  apply IH. rewrite length_drop. lia.
Qed.

(** Resuming from the chaining value of the complete blocks of [d]. *)
Lemma absorb_resume (d c : bytes) :
  let q := length d / 64 in
  let tail := drop (64 * q) d ++ c in
  absorb (length (d ++ c) / 64) H0 (d ++ c)
  = absorb (length tail / 64) (absorb q H0 d) tail
  ∧ drop (64 * (length (d ++ c) / 64)) (d ++ c)
    = drop (64 * (length tail / 64)) tail.
Proof.
  intros q tail.
  assert (Hq : 64 * q ≤ length d).
  { unfold q. pose proof (Nat.div_mod_eq (length d) 64). lia. }
  assert (Ht : length tail = length d - 64 * q + length c).
  { unfold tail. by rewrite length_app, length_drop. }
  assert (Hn : length (d ++ c) / 64 = q + length tail / 64).
  { rewrite length_app, Ht.
    replace (length d + length c)
      with (q * 64 + (length d - 64 * q + length c)) by lia.
    by rewrite Nat.div_add_l. }
  rewrite Hn. split.
  - rewrite absorb_split, absorb_app by done.
    rewrite drop_app_le by done. done.
  - rewrite Nat.mul_add_distr_l, <- drop_drop.
    rewrite drop_app_le by done. done.
Qed.

Lemma init_absorbed : absorbed init [].
Proof. done. Qed.

Lemma update_absorbed (st : state) (d c : bytes) :
  absorbed st d → absorbed (update st c) (d ++ c).
Proof.
  intros (Hc & Hh & Hb). destruct (absorb_resume d c) as [E1 E2].
  unfold absorbed, update. cbn [count chain buffer].
  rewrite Hc, Hh, Hb, E1, E2, length_app. done.
Qed.

Lemma digest_absorbed (st : state) (d : bytes) :
  absorbed st d → digest st = hash d.
Proof.
  intros (Hc & Hh & Hb).
  destruct (absorb_resume d (padding (length d))) as [E1 _].
  unfold digest, hash. by rewrite Hc, Hh, Hb, E1.
Qed.

(** Feeding a message in pieces gives the hash of the message. *)
Lemma update_chunks (chunks : list bytes) :
  hexdigest (foldl update init chunks) = hex (hash (mjoin chunks)).
Proof.
  unfold hexdigest. f_equal. apply digest_absorbed.
  assert (G : ∀ st d, absorbed st d →
            absorbed (foldl update st chunks) (d ++ mjoin chunks)).
  { induction chunks as [|c chunks IH]; intros st d Hst; simpl.
    - by rewrite app_nil_r.
    - rewrite app_assoc. by apply IH, update_absorbed. }
  apply (G init [] init_absorbed).
Qed.

Lemma chunk_size_pos : 0 < chunk_size.
Proof. unfold chunk_size. lia. Qed.

Lemma read_Some n fh c fh' :
  read n fh = Some (c, fh') →
  c = take n (rest fh) ∧ rest fh' = drop n (rest fh)
  ∧ fuse fh' = pred <$> fuse fh.
Proof.
  unfold read. destruct (fuse fh) as [[|k]|]; [done| |];
    by intros [= <- <-].
Qed.

Lemma read_None n fh : read n fh = None → is_Some (fuse fh).
Proof. unfold read. destruct (fuse fh) as [[|k]|]; naive_solver. Qed.

(** The reading loop: when it ends normally the object has been fed the
    whole remainder of the file; it raises only on a file with a fault. *)
Lemma read_chunks_absorbed (fh : handle) (st : state) :
  ∀ d, absorbed st d →
    match read_chunks fh st with
    | Some st' => absorbed st' (d ++ rest fh)
    | None => is_Some (fuse fh)
    end.
Proof.
  apply (read_chunks_elim (λ fh st r, ∀ d, absorbed st d →
    match r with
    | Some st' => absorbed st' (d ++ rest fh)
    | None => is_Some (fuse fh)
    end)); clear fh st.
  - intros fh h0 e st _ d Hst.
    apply read_Some in e as (E & _ & _).
    pose proof chunk_size_pos.
    destruct (rest fh) as [|x r]; [by rewrite app_nil_r|].
    destruct chunk_size; [lia|done].
  - intros fh b chunk fh' Hread st IH _ d Hst.
    apply read_Some in Hread as (E & Er & Ef).
    specialize (IH (d ++ b :: chunk) (update_absorbed _ _ _ Hst)).
    destruct (read_chunks fh' (update st (b :: chunk))) as [st'|].
    + by rewrite <- app_assoc, E, Er, take_drop in IH.
    + rewrite Ef in IH. by destruct (fuse fh).
  - intros fh e st _ d _. by apply read_None in e.
Qed.

Lemma hexdigit_lower (n : N) : (n < 16)%N → is_lower_hex (hexdigit n).
Proof.
  intros Hn. unfold is_lower_hex, hexdigit.
  destruct (n <? 10)%N eqn:E; [apply N.ltb_lt in E|apply N.ltb_ge in E]; lia.
Qed.

Lemma hex_lower (bs : bytes) : Forall is_lower_hex (hex bs).
Proof.
  induction bs as [|b bs IH]; [constructor|].
  pose proof (Byte.to_N_bounded b) as Hb.
  change (hex (b :: bs)) with (hex_of_byte b ++ hex bs).
  apply Forall_app. split; [|done]. unfold hex_of_byte.
  apply Forall_cons_2; [|apply Forall_cons_2; [|apply Forall_nil_2]];
    apply hexdigit_lower.
  - apply N.Div0.div_lt_upper_bound. lia.
  - apply N.mod_lt. lia.
Qed.

Lemma length_hex (bs : bytes) : length (hex bs) = 2 * length bs.
Proof.
  induction bs as [|b bs IH]; [done|].
  change (hex (b :: bs)) with (hex_of_byte b ++ hex bs).
  rewrite length_app, IH. simpl. lia.
Qed.

Lemma length_hash (msg : bytes) : length (hash msg) = 32.
Proof.
  unfold hash.
  generalize (absorb (length (msg ++ padding (length msg)) / 64) H0
                (msg ++ padding (length msg))).
  intros h. reflexivity.
Qed.

(** What [sha256_hex] returns and when it raises. *)
Lemma sha256_hex_inr f p h :
  sha256_hex f p = inr h →
  ∃ data fault, f !! p = Some (Fs.NFile data fault) ∧ h = hex (hash data).
Proof.
  unfold sha256_hex, open_rb.
  destruct (f !! p) as [[data fault| |]|] eqn:Hp; try done.
  intros H. exists data, fault. split; [done|].
  assert (∃ fu, match read_chunks (Handle data fu) init with
                | Some st => inr (hexdigest st)
                | None => inl (OSError_read p)
                end = inr h) as [fu Hr].
  { destruct fault as [[|k]|]; [done| |]; eauto. }
  pose proof (read_chunks_absorbed (Handle data fu) init [] init_absorbed)
    as Ha.
  destruct (read_chunks (Handle data fu) init) as [st|]; [|done].
  injection Hr as <-. unfold hexdigest. f_equal.
  by apply digest_absorbed.
Qed.

Lemma open_rb_readable f p data :
  f !! p = Some (Fs.NFile data None) → open_rb f p = Some (Handle data None).
Proof. intros Hp. unfold open_rb. by rewrite Hp. Qed.

Lemma sha256_hex_readable f p data :
  f !! p = Some (Fs.NFile data None) → sha256_hex f p = inr (hex (hash data)).
Proof.
  intros Hp. unfold sha256_hex. rewrite (open_rb_readable f p data Hp).
  pose proof (read_chunks_absorbed (Handle data None) init [] init_absorbed)
    as Ha.
  destruct (read_chunks (Handle data None) init) as [st|].
  - unfold hexdigest. do 2 f_equal. by apply digest_absorbed.
  - by destruct Ha.
Qed.

Lemma sha256_hex_inl f p e : sha256_hex f p = inl e → e = OSError_read p.
Proof.
  unfold sha256_hex. destruct (open_rb f p) as [fh|]; [|congruence].
  destruct (read_chunks fh init); congruence.
Qed.

End HashFacts.

(** ** The builder *)

Module BuildFacts.
Import Str Path Fs Json Manifest Spec HashFacts.

Lemma build_manifest_loop_inr f ps acc packs :
  build_manifest_loop f ps acc = inr packs →
  ∃ rs, packs = acc ++ rs ∧ Forall2 (record_for f) ps rs.
Proof.
  revert acc. induction ps as [|p ps IH]; intros acc; simpl.
  - intros [= <-]. exists []. by rewrite app_nil_r.
  - destruct (sha256_hex f p) as [e|h] eqn:Hh; [done|].
    intros (rs & -> & Hrs)%IH.
    apply sha256_hex_inr in Hh as (data & fault & Hp & ->).
    exists (pack (name p) (SHA256.hex (SHA256.hash data)) :: rs).
    rewrite <- app_assoc. split; [done|].
    constructor; [|done]. by exists data, fault.
Qed.

Lemma build_manifest_inr f l ex packs :
  build_manifest f l ex = inr packs →
  Forall2 (record_for f) (iter_json_files f l ex) packs.
Proof. by intros (rs & -> & Hrs)%build_manifest_loop_inr. Qed.

Lemma build_manifest_loop_inl f ps acc e :
  build_manifest_loop f ps acc = inl e →
  ∃ p, p ∈ ps ∧ e = OSError_read p ∧ sha256_hex f p = inl e.
Proof.
  revert acc. induction ps as [|p ps IH]; intros acc; simpl; [done|].
  destruct (sha256_hex f p) as [e'|h] eqn:Hh.
  - intros [= ->]. exists p. pose proof (sha256_hex_inl _ _ _ Hh).
    split_and!; [left|done|done].
  - intros (q & Hq & He)%IH. exists q. split; [by right|done].
Qed.

Lemma build_manifest_loop_hashed f ps acc packs :
  build_manifest_loop f ps acc = inr packs →
  Forall (λ p, ∃ h, sha256_hex f p = inr h) ps.
Proof.
  revert acc. induction ps as [|p ps IH]; intros acc; simpl; [constructor|].
  destruct (sha256_hex f p) as [e|h] eqn:Hh; [done|].
  intros Hb. constructor; eauto.
Qed.

Lemma build_manifest_loop_total f ps acc :
  Forall (λ p, ∃ h, sha256_hex f p = inr h) ps →
  ∃ packs, build_manifest_loop f ps acc = inr packs.
Proof.
  intros H. revert acc. induction H as [|p ps [h Hh] _ IH]; intros acc; simpl.
  - eauto.
  - rewrite Hh. apply IH.
Qed.

Lemma get_fileName (name hash : str) :
  get_str (ustr "fileName") (pack name hash) = Some name.
Proof. reflexivity. Qed.

Lemma get_sha256 (name hash : str) :
  get_str (ustr "sha256") (pack name hash) = Some hash.
Proof. reflexivity. Qed.

Lemma record_for_fileNames f ps rs :
  Forall2 (record_for f) ps rs → fileNames rs = Some <$> (name <$> ps).
Proof.
  induction 1 as [|p r ps rs (data & fault & _ & ->) _ IH]; [done|].
  unfold fileNames in *. rewrite !fmap_cons, IH. by rewrite get_fileName.
Qed.

End BuildFacts.

(** ** The serialised document *)

Module JsonFacts.
Import Str Path Fs Json Manifest Spec HashFacts BuildFacts.

Lemma hexdigit_ascii (n : N) : (n < 16)%N → ascii (hexdigit n).
Proof.
  intros Hn. unfold ascii, hexdigit. destruct (n <? 10)%N; lia.
Qed.

Lemma hex4_ascii (n : N) : Forall ascii (hex4 n).
Proof.
  unfold hex4. repeat apply Forall_cons_2; [..|apply Forall_nil_2];
    apply hexdigit_ascii, N.mod_lt; lia.
Qed.

Lemma uescape_ascii (n : N) : Forall ascii (uescape n).
Proof.
  unfold uescape. apply Forall_cons_2; [by compute|].
  apply Forall_app. split; [|apply hex4_ascii].
  apply Forall_cons_2; [by compute|apply Forall_nil_2].
Qed.

Lemma escape_cp_ascii (c : N) : Forall ascii (escape_cp c).
Proof.
  unfold escape_cp.
  repeat (destruct (_ =? _)%N;
          [repeat apply Forall_cons_2; by first [apply Forall_nil_2|compute]|]).
  destruct ((32 <=? c) && (c <=? 126))%N eqn:E.
  - apply andb_true_iff in E as [_ H2%N.leb_le].
    apply Forall_cons_2; [unfold ascii; lia|apply Forall_nil_2].
  - destruct (c <? 65536)%N; [apply uescape_ascii|].
    apply Forall_app. split; apply uescape_ascii.
Qed.

Lemma encode_str_ascii (s : str) : Forall ascii (encode_str s).
Proof.
  unfold encode_str. apply Forall_cons_2; [by compute|].
  apply Forall_app. split; [|apply Forall_cons_2; [by compute|constructor]].
  induction s as [|c s IH]; [constructor|].
  change (mbind escape_cp (c :: s)) with (escape_cp c ++ mbind escape_cp s).
  apply Forall_app. split; [apply escape_cp_ascii|done].
Qed.

(** Hexadecimal digits are written as they are. *)
Lemma escape_cp_hex (c : N) : is_lower_hex c → escape_cp c = [c].
Proof.
  intros Hc. unfold escape_cp.
  repeat (destruct (_ =? _)%N eqn:E;
          [apply N.eqb_eq in E; unfold is_lower_hex in Hc; lia|clear E]).
  replace ((32 <=? c) && (c <=? 126))%N with true; [done|].
  symmetry. apply andb_true_iff.
  split; apply N.leb_le; unfold is_lower_hex in Hc; lia.
Qed.

Lemma encode_str_hex (h : str) :
  Forall is_lower_hex h → encode_str h = quoted h.
Proof.
  intros Hh. unfold encode_str, quoted. do 2 f_equal.
  induction Hh as [|c h Hc _ IH]; [done|].
  change (mbind escape_cp (c :: h)) with (escape_cp c ++ mbind escape_cp h).
  by rewrite IH, escape_cp_hex.
Qed.

Lemma is_lower_hex_ascii (c : N) : is_lower_hex c → ascii c.
Proof. unfold is_lower_hex, ascii. lia. Qed.

Lemma record_for_hex_pack f p r : record_for f p r → hex_pack r.
Proof.
  intros (data & fault & _ & ->). eexists _, _. split; [done|].
  apply hex_lower.
Qed.

Lemma encode_pack (r : value) :
  hex_pack r → ustr "    " ++ encode 2 r = record_text r.
Proof.
  intros (name & hash & -> & Hh). unfold record_text.
  rewrite get_fileName, get_sha256, <- (encode_str_hex hash Hh).
  change (encode 2 (pack name hash))
    with (ustr "{" ++ newline_indent 3
          ++ encode_str (ustr "fileName") ++ ustr ": " ++ encode_str name
          ++ (ustr "," ++ newline_indent 3
              ++ encode_str (ustr "sha256") ++ ustr ": " ++ encode_str hash
              ++ [])
          ++ newline_indent 2 ++ ustr "}").
  generalize (encode_str name) (encode_str hash). intros en eh.
  rewrite app_nil_r, <- !app_assoc. reflexivity.
Qed.

Lemma encode_more_packs (rs : list value) :
  Forall hex_pack rs →
  encode_more 1 rs = mbind (λ r, ustr "," ++ [10%N] ++ record_text r) rs.
Proof.
  induction 1 as [|r rs Hr _ IH]; [done|].
  change (encode_more 1 (r :: rs))
    with (ustr "," ++ ([10%N] ++ ustr "    ") ++ encode 2 r
          ++ encode_more 1 rs).
  change (mbind ?g (r :: rs)) with (g r ++ mbind g rs).
  rewrite IH, <- (encode_pack r Hr).
  by rewrite <- !app_assoc.
Qed.

(** The program writes the document of the specification. *)
Lemma document_text (packs : list value) :
  Forall hex_pack packs → packs ≠ [] → document packs = manifest_text packs.
Proof.
  intros H Hne. destruct packs as [|r rs]; [done|].
  apply Forall_cons in H as [Hr Hrs].
  unfold document, dumps, manifest_text, records_text.
  change (encode 0 (JDict [(ustr "packs", JList (r :: rs))]))
    with (ustr "{" ++ ([10%N] ++ ustr "  ")
          ++ encode_str (ustr "packs") ++ ustr ": "
          ++ (ustr "[" ++ ([10%N] ++ ustr "    ") ++ encode 2 r
              ++ encode_more 1 rs ++ ([10%N] ++ ustr "  ") ++ ustr "]")
          ++ [] ++ [10%N] ++ ustr "}").
  rewrite (encode_more_packs rs Hrs), <- (encode_pack r Hr).
  change (encode_str (ustr "packs")) with (quoted (ustr "packs")).
  rewrite <- !app_assoc. reflexivity.
Qed.

Ltac ground_ascii :=
  match goal with
  | |- Forall ascii ?l => apply (bool_decide_unpack _); vm_compute; exact I
  end.

Lemma quoted_ascii (s : str) : Forall ascii s → Forall ascii (quoted s).
Proof.
  intros H. unfold quoted. apply Forall_cons_2; [by compute|].
  apply Forall_app. split; [done|ground_ascii].
Qed.

Lemma record_text_ascii (r : value) : hex_pack r → Forall ascii (record_text r).
Proof.
  intros (name & hash & -> & Hh). unfold record_text.
  rewrite get_fileName, get_sha256.
  assert (Hq : Forall ascii (quoted hash)).
  { apply quoted_ascii. eapply Forall_impl; [done|].
    apply is_lower_hex_ascii. }
  pose proof (encode_str_ascii name) as Hn.
  revert Hq Hn. generalize (quoted hash) (encode_str name). intros qh en ??.
  repeat (apply Forall_app; split); first [assumption|ground_ascii].
Qed.

Lemma manifest_text_ascii (rs : list value) :
  Forall hex_pack rs → Forall ascii (manifest_text rs).
Proof.
  intros H.
  assert (Hr : Forall ascii (records_text rs)).
  { destruct H as [|r rs Hr Hrs]; [constructor|]. unfold records_text.
    apply Forall_app. split; [by apply record_text_ascii|].
    induction Hrs as [|r' rs Hr' _ IH]; [constructor|].
    change (mbind ?g (r' :: rs)) with (g r' ++ mbind g rs).
    apply Forall_app. split; [|exact IH].
    apply Forall_app. split; [ground_ascii|].
    apply Forall_app. split; [ground_ascii|by apply record_text_ascii]. }
  unfold manifest_text. revert Hr. generalize (records_text rs). intros t ?.
  repeat (apply Forall_app; split); first [assumption|ground_ascii].
Qed.

(** An ASCII text is written as the bytes of its code points. *)
Lemma to_N_byte_of_N (c : N) : (c < 256)%N → Byte.to_N (byte_of_N c) = c.
Proof.
  intros Hc. unfold byte_of_N. rewrite N.mod_small by done.
  destruct (Byte.of_N c) as [b|] eqn:E.
  - by apply Byte.to_of_N.
  - apply Byte.of_N_None_iff in E. lia.
Qed.

Lemma utf8_ascii (s : str) : Forall ascii s → Byte.to_N <$> utf8 s = s.
Proof.
  induction 1 as [|c s Hc _ IH]; [done|].
  change (utf8 (c :: s)) with (utf8_cp c ++ utf8 s).
  rewrite fmap_app, IH. unfold utf8_cp, ascii in *.
  replace (c <? 128)%N with true by (symmetry; apply N.ltb_lt; lia).
  simpl. rewrite to_N_byte_of_N by lia. done.
Qed.

End JsonFacts.

(** ** [main] *)

Module MainFacts.
Import Str Path Fs Json Manifest Spec HashFacts BuildFacts.

(** A run that returns has built a non-empty list of records and written
    their document at the output path. *)
Lemma main_inr a l f n f' :
  main a l f = (inr n, f') →
  ∃ packs f1,
    is_dir f (assets_dir a) = true
    ∧ build_manifest f l (excludes_of a) = inr packs
    ∧ packs ≠ [] ∧ n = length packs
    ∧ mkdir_parents [] (parent (output a)) f = (None, f1)
    ∧ f' = <[output a := NFile (utf8 (document packs)) None]> f1.
Proof.
  unfold main. destruct (is_dir f (assets_dir a)); simpl; [|done].
  destruct (build_manifest f l (excludes_of a)) as [e|[|r rs]]; [done..|].
  destruct (mkdir_parents _ _ f) as [[e|] f1]; [done|].
  unfold write_text. destruct (is_dir f1 (output a)); [done|].
  destruct (f1 !! output a) as [[| |]|] eqn:E; intros [= <- <-];
    exists (r :: rs), f1; by rewrite ?E.
Qed.

(** A run that stops before the write stage leaves the file system as it
    found it. *)
Lemma main_build_inl a l f e :
  is_dir f (assets_dir a) = true →
  build_manifest f l (excludes_of a) = inl e →
  main a l f = (inl e, f).
Proof. intros Hd Hb. unfold main. by rewrite Hd, Hb. Qed.

Lemma main_build_nil a l f :
  is_dir f (assets_dir a) = true →
  build_manifest f l (excludes_of a) = inr [] →
  main a l f = (inl SystemExit_no_packs, f).
Proof. intros Hd Hb. unfold main. by rewrite Hd, Hb. Qed.

Lemma main_changed a l f r f' :
  main a l f = (r, f') → f' ≠ f →
  ∃ packs, build_manifest f l (excludes_of a) = inr packs ∧ packs ≠ [].
Proof.
  unfold main. destruct (is_dir f (assets_dir a)); simpl; [|congruence].
  destruct (build_manifest f l (excludes_of a)) as [e|[|p ps]];
    [congruence..|].
  intros _ _. by exists (p :: ps).
Qed.

(** [main] depends on the enumeration only through the records built. *)
Lemma main_listing a l1 l2 f :
  build_manifest f l1 (excludes_of a) = build_manifest f l2 (excludes_of a) →
  main a l1 f = main a l2 f.
Proof. intros E. unfold main. by rewrite E. Qed.

End MainFacts.

(** * The claims *)

Import Str Path Fs File Json Manifest Spec Scenario.
Import PathFacts StrFacts FsFacts Discovery HashFacts BuildFacts JsonFacts
  MainFacts.

(** The implementation of SHA-256 agrees with the published test vectors
    (FIPS 180-4, one-block and two-block messages, and the empty message). *)
Example hash_abc :
  SHA256.hex (SHA256.hash (SHA256.bstr "abc"))
  = ustr "ba7816bf8f01cfea414140de5dae2223b00361a396177a9cb410ff61f20015ad".
Proof. vm_compute. reflexivity. Qed.

Example hash_empty :
  SHA256.hex (SHA256.hash [])
  = ustr "e3b0c44298fc1c149afbf4c8996fb92427ae41e4649b934ca495991b7852b855".
Proof. vm_compute. reflexivity. Qed.

Example hash_two_blocks :
  SHA256.hex (SHA256.hash (SHA256.bstr
    "abcdbcdecdefdefgefghfghighijhijkijkljklmklmnlmnomnopnopq"))
  = ustr "248d6a61d20638b8e5c026930c3e6039a33ce45964ff2167f6ecedd419db06c1".
Proof. vm_compute. reflexivity. Qed.

(** The scenario of the specification: [a.json] holding [{}] and [b.json]
    holding [{"x":1}], default command line. *)
Example build_two :
  build_manifest fs_two (children fs_two assets) (excludes_of args_default)
  = inr packs_two.
Proof. vm_compute. reflexivity. Qed.

Example build_mixed :
  build_manifest fs_mixed (children fs_mixed assets) (excludes_of args_default)
  = inr packs_mixed.
Proof. vm_compute. reflexivity. Qed.

(** The document of that scenario, character for character. *)
Example document_two :
  document packs_two
  = text ("{|  'packs': [|"
     ++ "    {|      'fileName': 'a.json',|      'sha256': "
     ++ "'44136fa355b3678a1146ad16f7e8649e94fb4fc21fe77e8310c060f61caaff8a'|"
     ++ "    },|"
     ++ "    {|      'fileName': 'b.json',|      'sha256': "
     ++ "'5041bf1f713df204784353e82f6a4a535931cb64f1f4b4a5aeaffcb720918b22'|"
     ++ "    }|  ]|}|").
Proof. vm_compute. reflexivity. Qed.

(** The run of that scenario reports two packs and writes the document at
    the output path; a second run, which finds [packs.json] in the
    directory, writes the same bytes again. *)
Example main_two :
  let l0 := children fs_two assets in
  let f1 := (main args_default l0 fs_two).2 in
  (main args_default l0 fs_two).1 = inr 2
  ∧ f1 !! output args_default
    = Some (NFile (utf8 (document packs_two)) None)
  ∧ (main args_default (children f1 assets) f1).1 = inr 2
  ∧ (main args_default (children f1 assets) f1).2 !! output args_default
    = f1 !! output args_default.
Proof. split_and!; vm_compute; reflexivity. Qed.

(** A file name outside ASCII is written with [\u] escapes. *)
Example encode_str_non_ascii :
  encode_str [233%N; 46%N; 0x1F600%N]
  = dquote :: bslash :: ustr "u00e9." ++ bslash :: ustr "ud83d"
    ++ bslash :: ustr "ude00" ++ [dquote].
Proof. vm_compute. reflexivity. Qed.

(** C7: discovery yields exactly the entries of the directory that are
    regular files, whose name has a non-empty stem followed by ".json" in
    any letter case, and whose name is not in the exclusion set; an excluded
    name is left out whatever its extension. *)
Theorem discovery_exact (f : fs) (d : path) (listing : list path)
    (excludes : gset str) (p : path) :
  iterdir f d listing →
  p ∈ iter_json_files f listing excludes
  ↔ is_child d p ∧ is_file f p = true
    ∧ json_name (name p) ∧ name p ∉ excludes.
Proof.
  intros Hl. rewrite elem_of_iter_json_files, (iterdir_elem_of f d listing p Hl).
  unfold eligible, suffix. rewrite suffix_json. split.
  - tauto.
  - intros (Hc & Hf & Hj & He). split_and!; try done.
    unfold is_file in Hf. destruct (f !! p); [eauto|done].
Qed.

Lemma discovery_exact_witness :
  iterdir fs_mixed assets (children fs_mixed assets)
  ∧ (entry "c.JSON" ∈ iter_json_files fs_mixed (children fs_mixed assets)
                        (excludes_of args_default)
     ↔ is_child assets (entry "c.JSON")
       ∧ is_file fs_mixed (entry "c.JSON") = true
       ∧ json_name (name (entry "c.JSON"))
       ∧ name (entry "c.JSON") ∉ excludes_of args_default).
Proof.
  split; [unfold iterdir; reflexivity|].
  apply (discovery_exact fs_mixed assets). unfold iterdir; reflexivity.
Defined.

(** C5: the records of the manifest are in discovery order, and that order
    is the strict code-point order of the file names, whatever order the
    file system enumerates the directory in. *)
Theorem manifest_sorted_by_name (f : fs) (d : path) (listing : list path)
    (excludes : gset str) (packs : list value) :
  iterdir f d listing →
  build_manifest f listing excludes = inr packs →
  fileNames packs = Some <$> (name <$> iter_json_files f listing excludes)
  ∧ StronglySorted name_lt (name <$> iter_json_files f listing excludes)
  ∧ ∀ listing', iterdir f d listing' →
      iter_json_files f listing' excludes = iter_json_files f listing excludes
      ∧ build_manifest f listing' excludes = inr packs.
Proof.
  intros Hl Hb. split_and!.
  - by apply (record_for_fileNames f), build_manifest_inr.
  - by apply (iter_json_files_names_sorted f d).
  - intros l' Hl'.
    assert (E : iter_json_files f l' excludes
                = iter_json_files f listing excludes).
    { apply iter_json_files_order_invariant.
      unfold iterdir in *. by rewrite Hl, Hl'. }
    split; [done|]. unfold build_manifest in *. by rewrite E.
Qed.

Lemma manifest_sorted_by_name_witness :
  iterdir fs_mixed assets (children fs_mixed assets)
  ∧ build_manifest fs_mixed (children fs_mixed assets)
      (excludes_of args_default) = inr packs_mixed
  ∧ StronglySorted name_lt
      (name <$> iter_json_files fs_mixed (children fs_mixed assets)
                  (excludes_of args_default)).
Proof.
  assert (H1 : iterdir fs_mixed assets (children fs_mixed assets))
    by (unfold iterdir; reflexivity).
  assert (H2 : build_manifest fs_mixed (children fs_mixed assets)
                 (excludes_of args_default) = inr packs_mixed)
    by (vm_compute; reflexivity).
  split_and!; [done..|].
  exact (proj1 (proj2 (manifest_sorted_by_name _ _ _ _ _ H1 H2))).
Defined.

(** C8: in the manifest a successful run writes, no two records have the
    same [fileName]. *)
Theorem manifest_names_distinct (a : args) (listing : list path) (f : fs)
    (n : nat) (f' : fs) :
  iterdir f (assets_dir a) listing →
  main a listing f = (inr n, f') →
  ∃ packs,
    build_manifest f listing (excludes_of a) = inr packs
    ∧ f' !! output a = Some (NFile (utf8 (document packs)) None)
    ∧ NoDup (fileNames packs).
Proof.
  intros Hl (packs & f1 & _ & Hb & _ & _ & _ & ->)%main_inr.
  exists packs. split_and!; [done|apply lookup_insert_eq|].
  rewrite (record_for_fileNames f _ _ (build_manifest_inr _ _ _ _ Hb)).
  apply (NoDup_fmap_2 Some).
  eapply StronglySorted_name_lt_NoDup, iter_json_files_names_sorted, Hl.
Qed.

Lemma manifest_names_distinct_witness :
  iterdir fs_two (assets_dir args_default) (children fs_two assets)
  ∧ (main args_default (children fs_two assets) fs_two).1 = inr 2
  ∧ ∃ packs,
      build_manifest fs_two (children fs_two assets)
        (excludes_of args_default) = inr packs
      ∧ (main args_default (children fs_two assets) fs_two).2
          !! output args_default
        = Some (NFile (utf8 (document packs)) None)
      ∧ NoDup (fileNames packs).
Proof.
  assert (H1 : iterdir fs_two (assets_dir args_default)
                 (children fs_two assets))
    by (unfold iterdir; reflexivity).
  assert (H2 : (main args_default (children fs_two assets) fs_two).1 = inr 2)
    by (vm_compute; reflexivity).
  split_and!; [done..|].
  apply (manifest_names_distinct args_default (children fs_two assets)
           fs_two 2); [done|].
  rewrite <- H2. apply surjective_pairing.
Defined.

(** C9: a file named exactly "packs.json" never becomes a record, whatever
    the output path and the caller's exclusions are: the literal name is
    always a member of the exclusion set. *)
Theorem packs_json_always_excluded (a : args) (listing : list path) (f : fs)
    (packs : list value) :
  build_manifest f listing (excludes_of a) = inr packs →
  ustr "packs.json" ∈ excludes_of a
  ∧ (∀ p, p ∈ iter_json_files f listing (excludes_of a) →
          name p ≠ ustr "packs.json")
  ∧ Some (ustr "packs.json") ∉ fileNames packs.
Proof.
  intros Hb.
  assert (Hin : ustr "packs.json" ∈ excludes_of a).
  { unfold excludes_of. set_solver. }
  assert (Hd : ∀ p, p ∈ iter_json_files f listing (excludes_of a) →
                    name p ≠ ustr "packs.json").
  { intros p [_ (_ & _ & Hex)]%elem_of_iter_json_files Hn.
    by rewrite Hn in Hex. }
  split_and!; [done..|].
  rewrite (record_for_fileNames f _ _ (build_manifest_inr _ _ _ _ Hb)).
  intros (n & [= <-] & (p & Hn & Hp)%list_elem_of_fmap)%list_elem_of_fmap.
  by apply (Hd p).
Qed.

Lemma packs_json_always_excluded_witness :
  build_manifest fs_mixed (children fs_mixed assets)
    (excludes_of args_elsewhere) = inr packs_mixed
  ∧ is_file fs_mixed (entry "packs.json") = true
  ∧ Some (ustr "packs.json") ∉ fileNames packs_mixed.
Proof.
  assert (H : build_manifest fs_mixed (children fs_mixed assets)
                (excludes_of args_elsewhere) = inr packs_mixed)
    by (vm_compute; reflexivity).
  split_and!; [done|vm_compute; reflexivity|].
  exact (proj2 (proj2 (packs_json_always_excluded _ _ _ _ H))).
Defined.

(** C10: the extension test ignores letter case and the exclusion test does
    not.  A regular file whose name is a case variant of an excluded
    [.json] name (such as "PACKS.JSON" for the default exclusion
    "packs.json"), and whose own spelling is not in the exclusion set,
    passes the extension filter, is discovered, and has a record in the
    manifest. *)
Theorem case_variant_not_excluded (a : args) (listing : list path) (f : fs)
    (p : path) (excluded : str) (packs : list value) :
  p ∈ listing →
  is_file f p = true →
  excluded ∈ excludes_of a →
  lower (suffix_of excluded) = ustr ".json" →
  lower (name p) = lower excluded →
  name p ∉ excludes_of a →
  build_manifest f listing (excludes_of a) = inr packs →
  lower (suffix p) = ustr ".json"
  ∧ (p ∈ iter_json_files f listing (excludes_of a))
  ∧ (Some (name p) ∈ fileNames packs).
Proof.
  intros Hp Hf Hin Hjson Hlow Hex Hb.
  assert (Hs : lower (suffix p) = ustr ".json").
  { unfold suffix. by rewrite <- suffix_of_lower, Hlow, suffix_of_lower. }
  assert (Hd : p ∈ iter_json_files f listing (excludes_of a)).
  { by apply elem_of_iter_json_files. }
  split_and!; [done..|].
  rewrite (record_for_fileNames f _ _ (build_manifest_inr _ _ _ _ Hb)).
  by apply list_elem_of_fmap_2, list_elem_of_fmap_2.
Qed.

Lemma case_variant_not_excluded_witness :
  entry "PACKS.JSON" ∈ children fs_mixed assets
  ∧ ustr "packs.json" ∈ excludes_of args_default
  ∧ (name (entry "PACKS.JSON") ∉ excludes_of args_default)
  ∧ (Some (ustr "PACKS.JSON") ∈ fileNames packs_mixed).
Proof.
  assert (H1 : entry "PACKS.JSON" ∈ children fs_mixed assets).
  { apply (bool_decide_unpack _). vm_compute. exact I. }
  assert (H2 : ustr "packs.json" ∈ excludes_of args_default).
  { apply (bool_decide_unpack _). vm_compute. exact I. }
  assert (H3 : name (entry "PACKS.JSON") ∉ excludes_of args_default).
  { apply (bool_decide_unpack _). vm_compute. exact I. }
  split_and!; [done..|].
  refine (proj2 (proj2
    (case_variant_not_excluded args_default (children fs_mixed assets)
       fs_mixed (entry "PACKS.JSON") (ustr "packs.json") packs_mixed
       H1 _ H2 _ _ H3 _))).
  - vm_compute; reflexivity.
  - vm_compute; reflexivity.
  - vm_compute; reflexivity.
  - vm_compute; reflexivity.
Defined.

(** C4: the [sha256] field of the record of every discovered file is the
    SHA-256 digest of the whole content of the file, as 64 lower-case
    hexadecimal digits.  The file is read in chunks of at most 8192 bytes,
    and feeding the hash object chunk by chunk gives the digest of the
    concatenation.  The digest is a function of the bytes alone: two files
    with the same bytes have the same digest under any names, and a
    readable file always gets one. *)
Theorem sha256_field_is_digest (f : fs) (listing : list path)
    (excludes : gset str) (packs : list value) :
  build_manifest f listing excludes = inr packs →
  Forall2 (λ p r, ∃ data fault,
             f !! p = Some (NFile data fault)
             ∧ get_str (ustr "fileName") r = Some (name p)
             ∧ get_str (ustr "sha256") r
               = Some (SHA256.hex (SHA256.hash data))
             ∧ length (SHA256.hex (SHA256.hash data)) = 64
             ∧ Forall is_lower_hex (SHA256.hex (SHA256.hash data)))
    (iter_json_files f listing excludes) packs
  ∧ (∀ (fh fh' : handle) (chunk : bytes),
       read chunk_size fh = Some (chunk, fh') → length chunk ≤ chunk_size)
  ∧ (∀ chunks : list bytes,
       SHA256.hexdigest (foldl SHA256.update SHA256.init chunks)
       = SHA256.hex (SHA256.hash (mjoin chunks)))
  ∧ (∀ (g : fs) (q : path) (data : bytes),
       g !! q = Some (NFile data None) →
       sha256_hex g q = inr (SHA256.hex (SHA256.hash data)))
  ∧ (∀ (g1 g2 : fs) (q1 q2 : path) (data : bytes) (k1 k2 : option nat)
       (h1 h2 : str),
       g1 !! q1 = Some (NFile data k1) → g2 !! q2 = Some (NFile data k2) →
       sha256_hex g1 q1 = inr h1 → sha256_hex g2 q2 = inr h2 → h1 = h2).
Proof.
  intros Hb. split_and!.
  - eapply Forall2_impl; [by apply build_manifest_inr|].
    intros p r (data & fault & Hp & ->). exists data, fault.
    split_and!; [done|apply get_fileName|apply get_sha256| |apply hex_lower].
    by rewrite length_hex, length_hash.
  - intros fh fh' chunk (-> & _)%read_Some. rewrite length_take. lia.
  - apply update_chunks.
  - apply sha256_hex_readable.
  - intros g1 g2 q1 q2 data k1 k2 h1 h2 H1 H2
      (d1 & ? & E1 & ->)%sha256_hex_inr (d2 & ? & E2 & ->)%sha256_hex_inr.
    congruence.
Qed.

Lemma sha256_field_is_digest_witness :
  build_manifest fs_two (children fs_two assets) (excludes_of args_default)
  = inr packs_two
  ∧ sha256_hex fs_two (entry "a.json") = inr sha_empty_object
  ∧ SHA256.hex (SHA256.hash empty_object) = sha_empty_object.
Proof.
  assert (H : build_manifest fs_two (children fs_two assets)
                (excludes_of args_default) = inr packs_two)
    by (vm_compute; reflexivity).
  split_and!; [done| |vm_compute; reflexivity].
  pose proof (proj1 (proj2 (proj2 (proj2
                (sha256_field_is_digest _ _ _ _ H))))
                fs_two (entry "a.json") empty_object) as G.
  rewrite G; [vm_compute; reflexivity|vm_compute; reflexivity].
Defined.

(** C2: when the hashing of a discovered file raises, the run ends with
    that read error ([UnreadableFile]) and leaves the file system as it
    was: nothing is written.  A run that changes the file system has hashed
    every discovered file successfully before. *)
Theorem unreadable_file_aborts (a : args) (listing : list path) (f : fs)
    (p : path) (e : exn) :
  is_dir f (assets_dir a) = true →
  p ∈ iter_json_files f listing (excludes_of a) →
  sha256_hex f p = inl e →
  (∃ q, q ∈ iter_json_files f listing (excludes_of a)
        ∧ main a listing f = (inl (OSError_read q), f)
        ∧ classify (OSError_read q) = UnreadableFile
        ∧ exit_status (main a listing f).1 ≠ 0%Z)
  ∧ (∀ (a' : args) (listing' : list path) (g : fs),
       (main a' listing' g).2 ≠ g →
       Forall (λ q, ∃ h, sha256_hex g q = inr h)
         (iter_json_files g listing' (excludes_of a'))).
Proof.
  intros Hd Hp He. split.
  - destruct (build_manifest f listing (excludes_of a)) as [e'|packs] eqn:Hb.
    + apply build_manifest_loop_inl in Hb as Hq.
      destruct Hq as (q & Hq & -> & _). exists q.
      rewrite (main_build_inl a listing f _ Hd Hb). done.
    + apply build_manifest_loop_hashed in Hb.
      rewrite Forall_forall in Hb. destruct (Hb p Hp) as [h Hh]. congruence.
  - intros a' l' g Hne.
    destruct (main a' l' g) as [r g'] eqn:Hm. simpl in Hne.
    destruct (main_changed _ _ _ _ _ Hm Hne) as (packs & Hb & _).
    by apply build_manifest_loop_hashed in Hb.
Qed.

Lemma unreadable_file_aborts_witness :
  is_dir fs_race (assets_dir args_default) = true
  ∧ entry "b.json" ∈ iter_json_files fs_race (children fs_race assets)
                       (excludes_of args_default)
  ∧ sha256_hex fs_race (entry "b.json") = inl (OSError_read (entry "b.json"))
  ∧ ∃ q, q ∈ iter_json_files fs_race (children fs_race assets)
               (excludes_of args_default)
         ∧ main args_default (children fs_race assets) fs_race
           = (inl (OSError_read q), fs_race)
         ∧ classify (OSError_read q) = UnreadableFile
         ∧ exit_status
             (main args_default (children fs_race assets) fs_race).1 ≠ 0%Z.
Proof.
  assert (H1 : is_dir fs_race (assets_dir args_default) = true)
    by (vm_compute; reflexivity).
  assert (H2 : entry "b.json" ∈ iter_json_files fs_race
                 (children fs_race assets) (excludes_of args_default)).
  { apply (bool_decide_unpack _). vm_compute. exact I. }
  assert (H3 : sha256_hex fs_race (entry "b.json")
               = inl (OSError_read (entry "b.json")))
    by (vm_compute; reflexivity).
  split_and!; [done..|].
  exact (proj1 (unreadable_file_aborts _ _ _ _ _ H1 H2 H3)).
Defined.

(** C6: when no file is eligible the run fails with the "no packs" exit
    ([EmptyAssetSet]), the exit status is not zero, and the file system is
    left as it was: no manifest with an empty [packs] array is written. *)
Theorem empty_asset_set_fails (a : args) (listing : list path) (f : fs) :
  is_dir f (assets_dir a) = true →
  iter_json_files f listing (excludes_of a) = [] →
  main a listing f = (inl SystemExit_no_packs, f)
  ∧ classify SystemExit_no_packs = EmptyAssetSet
  ∧ exit_status (main a listing f).1 ≠ 0%Z.
Proof.
  intros Hd He.
  assert (Hb : build_manifest f listing (excludes_of a) = inr []).
  { unfold build_manifest. by rewrite He. }
  rewrite (main_build_nil a listing f Hd Hb). done.
Qed.

Lemma empty_asset_set_fails_witness :
  is_dir fs_notes (assets_dir args_default) = true
  ∧ iter_json_files fs_notes (children fs_notes assets)
      (excludes_of args_default) = []
  ∧ main args_default (children fs_notes assets) fs_notes
    = (inl SystemExit_no_packs, fs_notes).
Proof.
  assert (H1 : is_dir fs_notes (assets_dir args_default) = true)
    by (vm_compute; reflexivity).
  assert (H2 : iter_json_files fs_notes (children fs_notes assets)
                 (excludes_of args_default) = [])
    by (vm_compute; reflexivity).
  split_and!; [done..|].
  exact (proj1 (empty_asset_set_fails _ _ _ H1 H2)).
Defined.

(** C3: two runs on the same directory content with the same exclusions end
    the same way and leave the same files, in whatever order the directory
    is enumerated.  The document a successful run writes is the one the
    specification lays out, with [fileName] before [sha256] in each record;
    it is pure ASCII, each byte being the code of its character, with file
    names outside ASCII escaped; and it ends with the closing brace and
    exactly one newline. *)
Theorem manifest_deterministic (a : args) (f : fs) (l1 l2 : list path) :
  iterdir f (assets_dir a) l1 →
  iterdir f (assets_dir a) l2 →
  main a l1 f = main a l2 f
  ∧ ∀ n f', main a l1 f = (inr n, f') →
      ∃ packs,
        build_manifest f l1 (excludes_of a) = inr packs
        ∧ f' !! output a = Some (NFile (utf8 (document packs)) None)
        ∧ document packs = manifest_text packs
        ∧ Forall ascii (document packs)
        ∧ Byte.to_N <$> utf8 (document packs) = document packs
        ∧ ∃ body, document packs = body ++ ustr "}" ++ [10%N].
Proof.
  intros H1 H2. split.
  - apply main_listing. unfold build_manifest.
    rewrite (iter_json_files_order_invariant f l1 l2); [done|].
    unfold iterdir in *. by rewrite H1, H2.
  - intros n f' (packs & f1 & _ & Hb & Hne & _ & _ & ->)%main_inr.
    exists packs.
    assert (Hp : Forall hex_pack packs).
    { apply build_manifest_inr in Hb. clear -Hb.
      induction Hb as [|p r ps rs Hr _ IH]; constructor; [|done].
      by apply (record_for_hex_pack f p). }
    assert (Ht : document packs = manifest_text packs)
      by by apply document_text.
    assert (Ha : Forall ascii (document packs))
      by (rewrite Ht; by apply manifest_text_ascii).
    split_and!; [done|apply lookup_insert_eq|done|done|by apply utf8_ascii|].
    rewrite Ht. unfold manifest_text.
    exists (ustr "{" ++ [10%N] ++ ustr "  " ++ quoted (ustr "packs")
            ++ ustr ": [" ++ [10%N] ++ records_text packs ++ [10%N]
            ++ ustr "  ]" ++ [10%N]).
    by rewrite <- !app_assoc.
Qed.

Lemma manifest_deterministic_witness :
  iterdir fs_mixed (assets_dir args_elsewhere) (children fs_mixed assets)
  ∧ iterdir fs_mixed (assets_dir args_elsewhere)
      (reverse (children fs_mixed assets))
  ∧ reverse (children fs_mixed assets) ≠ children fs_mixed assets
  ∧ main args_elsewhere (children fs_mixed assets) fs_mixed
    = main args_elsewhere (reverse (children fs_mixed assets)) fs_mixed
  ∧ (main args_elsewhere (children fs_mixed assets) fs_mixed).1 = inr 4.
Proof.
  assert (H1 : iterdir fs_mixed (assets_dir args_elsewhere)
                 (children fs_mixed assets))
    by (unfold iterdir; reflexivity).
  assert (H2 : iterdir fs_mixed (assets_dir args_elsewhere)
                 (reverse (children fs_mixed assets)))
    by (unfold iterdir; apply reverse_Permutation).
  split_and!; [done..|vm_compute; discriminate| |vm_compute; reflexivity].
  exact (proj1 (manifest_deterministic _ _ _ _ H1 H2)).
Defined.

(** C1 (the program departs from it): the name of the output path is not
    added to the exclusion set.  With the output at [manifest.json] inside
    the assets directory, the first run writes the manifest of [a.json] and
    [b.json]; the second run discovers that manifest and gives it a record
    of its own; the third run then writes a different document. *)
Theorem output_name_not_excluded :
  let l0 := children fs_two assets in
  let f1 := (main args_custom l0 fs_two).2 in
  let l1 := children f1 assets in
  let f2 := (main args_custom l1 f1).2 in
  let l2 := children f2 assets in
  let f3 := (main args_custom l2 f2).2 in
  name (output args_custom) = ustr "manifest.json"
  ∧ (name (output args_custom) ∉ excludes_of args_custom)
  ∧ (main args_custom l0 fs_two).1 = inr 2
  ∧ (main args_custom l1 f1).1 = inr 3
  ∧ output args_custom ∈ iter_json_files f1 l1 (excludes_of args_custom)
  ∧ (∃ packs, build_manifest f1 l1 (excludes_of args_custom) = inr packs
              ∧ fileNames packs
                = [ Some (ustr "a.json"); Some (ustr "b.json");
                    Some (ustr "manifest.json") ])
  ∧ f3 !! output args_custom ≠ f2 !! output args_custom.
Proof.
  split_and!.
  - vm_compute; reflexivity.
  - apply (bool_decide_unpack _). vm_compute. exact I.
  - vm_compute; reflexivity.
  - vm_compute; reflexivity.
  - apply (bool_decide_unpack _). vm_compute. exact I.
  - eexists. split; [vm_compute; reflexivity|vm_compute; reflexivity].
  - vm_compute. discriminate.
Qed.

(** * Further properties of the program *)

(** ** Creating directories and writing the output *)

Module WriteFacts.
Import Str Path Fs File Json Manifest Spec.
Import PathFacts FsFacts Discovery HashFacts BuildFacts MainFacts.

Lemma prefix_cons_nonempty {A} (k : list A) c t :
  k ≠ [] → k `prefix_of` c :: t → ∃ k', k = c :: k' ∧ k' `prefix_of` t.
Proof.
  intros Hk Hp. destruct k as [|x k']; [done|].
  pose proof (prefix_cons_inv_1 _ _ _ _ Hp) as ->.
  apply prefix_cons_inv_2 in Hp. eauto.
Qed.

Lemma mkdir_parents_spec base todo f r f' :
  mkdir_parents base todo f = (r, f') →
  (∀ q, f' !! q = f !! q
        ∨ (f !! q = None ∧ f' !! q = Some NDir
           ∧ ∃ k, k ≠ [] ∧ k `prefix_of` todo ∧ q = base ++ k))
  ∧ match r with
    | None => ∀ k, k ≠ [] → k `prefix_of` todo → f' !! (base ++ k) = Some NDir
    | Some e => ∃ k x, k ≠ [] ∧ k `prefix_of` todo
                       ∧ e = OSError_write (base ++ k)
                       ∧ f !! (base ++ k) = Some x ∧ x ≠ NDir
    end.
Proof.
  revert base f. induction todo as [|c t IH]; intros base f; simpl.
  - intros [= <- <-]. split; [by left|].
    intros k Hk Hp. by apply prefix_nil_inv in Hp.
  - assert (Hq0 : ∀ k', base ++ c :: k' = (base ++ [c]) ++ k')
      by (intros; rewrite <- app_assoc; reflexivity).
    destruct (f !! (base ++ [c])) as [[d0 k0| |]|] eqn:E.
    + intros [= <- <-]. split; [by left|].
      exists [c], (NFile d0 k0). split_and!; try done.
      by apply prefix_cons, prefix_nil.
    + intros [H1 H2]%IH. split.
      * intros q. destruct (H1 q) as [?|(? & ? & k' & ? & ? & ->)]; [by left|].
        right. split_and!; try done. exists (c :: k').
        split_and!; [done|by apply prefix_cons|symmetry; apply Hq0].
      * destruct r as [e|].
        -- destruct H2 as (k' & x & ? & ? & -> & ? & ?).
           exists (c :: k'), x. rewrite (Hq0 k').
           split_and!; try done. by apply prefix_cons.
        -- intros k Hk (k' & -> & Hp)%prefix_cons_nonempty; [|done].
           rewrite (Hq0 k'). destruct k' as [|y k'].
           ++ rewrite app_nil_r.
              destruct (H1 (base ++ [c])) as [->|(? & ? & _)]; congruence.
           ++ by apply H2.
    + intros [= <- <-]. split; [by left|].
      exists [c], NOther. split_and!; try done.
      by apply prefix_cons, prefix_nil.
    + intros [H1 H2]%IH. 
      assert (Hne : ∀ k', k' ≠ [] → (base ++ [c]) ++ k' ≠ base ++ [c]).
      { intros k' Hk' Heq. apply (f_equal length) in Heq.
        rewrite !length_app in Heq. destruct k'; simpl in *; [done|lia]. }
      split.
      * intros q. destruct (decide (q = base ++ [c])) as [->|Hq].
        -- right. split; [done|].
           destruct (H1 (base ++ [c])) as [->|(Hn & _)].
           ++ rewrite lookup_insert_eq. split; [done|]. exists [c].
              split_and!; [done|by apply prefix_cons, prefix_nil|done].
           ++ by rewrite lookup_insert_eq in Hn.
        -- destruct (H1 q) as [->|(Hn & ? & k' & ? & ? & ->)].
           ++ left. by rewrite lookup_insert_ne.
           ++ right. rewrite lookup_insert_ne in Hn by done.
              split_and!; try done. exists (c :: k').
              split_and!; [done|by apply prefix_cons|symmetry; apply Hq0].
      * destruct r as [e|].
        -- destruct H2 as (k' & x & Hk' & ? & -> & Hx & ?).
           exists (c :: k'), x. rewrite (Hq0 k').
           rewrite lookup_insert_ne in Hx by (symmetry; by apply Hne).
           split_and!; try done. by apply prefix_cons.
        -- intros k Hk (k' & -> & Hp)%prefix_cons_nonempty; [|done].
           rewrite (Hq0 k'). destruct k' as [|y k'].
           ++ rewrite app_nil_r.
              destruct (H1 (base ++ [c])) as [->|(Hn & _)].
              ** by rewrite lookup_insert_eq.
              ** by rewrite lookup_insert_eq in Hn.
           ++ by apply H2.
Qed.

Lemma parent_not_prefix (p : path) : p ≠ [] → ¬ p `prefix_of` parent p.
Proof.
  intros Hp Hpre%prefix_length. unfold parent in Hpre.
  rewrite length_take in Hpre. destruct p; simpl in *; [done|lia].
Qed.

Lemma ancestor_not_self (p q : path) : ancestor_of p q → q ≠ p.
Proof.
  intros [Hq Hpre] ->. by apply (parent_not_prefix p).
Qed.

Lemma write_text_inr p t f f2 :
  write_text p t f = inr f2 ↔
  p ≠ [] ∧ (f !! p = None ∨ ∃ data k, f !! p = Some (NFile data k))
  ∧ f2 = <[p := NFile (utf8 t) None]> f.
Proof.
  unfold write_text, is_dir. destruct p as [|c p].
  - split; [done|]. by intros [? _].
  - destruct (f !! (c :: p)) as [[data k| |]|] eqn:E.
    + split; [intros [= <-]|intros (_ & _ & ->)]; [|done].
      split_and!; eauto.
    + split; [done|]. intros (_ & [?|(? & ? & ?)] & _); done.
    + split; [done|]. intros (_ & [?|(? & ? & ?)] & _); done.
    + split; [intros [= <-]|intros (_ & _ & ->)]; [|done].
      split_and!; eauto.
Qed.

Lemma write_text_inl p t f e : write_text p t f = inl e → e = OSError_write p.
Proof.
  unfold write_text. destruct (is_dir f p); [congruence|].
  destruct (f !! p) as [[| |]|]; congruence.
Qed.


Lemma sha256_hex_ext f g p : f !! p = g !! p → sha256_hex f p = sha256_hex g p.
Proof. intros E. unfold sha256_hex, open_rb. by rewrite E. Qed.

Lemma build_manifest_loop_ext f g ps acc :
  (∀ p, p ∈ ps → f !! p = g !! p) →
  build_manifest_loop f ps acc = build_manifest_loop g ps acc.
Proof.
  revert acc. induction ps as [|p ps IH]; intros acc H; simpl; [done|].
  rewrite (sha256_hex_ext f g p) by (apply H; left).
  destruct (sha256_hex g p); [done|]. apply IH. intros q Hq. apply H. by right.
Qed.

(** Two directories whose candidate entries are regular files in the one
    exactly when they are in the other have the same discovered files. *)
Lemma iter_json_files_ext f g d l l' ex :
  iterdir f d l → iterdir g d l' →
  (∀ p, is_child d p → lower (suffix p) = ustr ".json" → name p ∉ ex →
        is_file f p = is_file g p) →
  iter_json_files f l ex = iter_json_files g l' ex.
Proof.
  intros Hl Hl' H.
  apply (StronglySorted_unique le); try apply iter_json_files_sorted.
  apply NoDup_Permutation.
  - eapply iter_json_files_NoDup, iterdir_NoDup, Hl.
  - eapply iter_json_files_NoDup, iterdir_NoDup, Hl'.
  - intros p. rewrite !elem_of_iter_json_files.
    rewrite (iterdir_elem_of f d l p Hl), (iterdir_elem_of g d l' p Hl').
    unfold eligible. split.
    + intros ((_ & Hc) & Hf & Hs & He). rewrite (H p Hc Hs He) in Hf.
      split_and!; try done. unfold is_file in Hf.
      destruct (g !! p); [eauto|done].
    + intros ((_ & Hc) & Hf & Hs & He). rewrite <- (H p Hc Hs He) in Hf.
      split_and!; try done. unfold is_file in Hf.
      destruct (f !! p); [eauto|done].
Qed.


Lemma mkdir_parents_output f out r f1 :
  mkdir_parents [] (parent out) f = (r, f1) → out ≠ [] → f1 !! out = f !! out.
Proof.
  intros [H1 _]%mkdir_parents_spec Hout.
  destruct (H1 out) as [?|(_ & _ & k & Hk & Hpre & E)]; [done|].
  simpl in E. subst k. by apply parent_not_prefix in Hpre.
Qed.


(** The stages of a run, in the order [main] goes through them. *)
Lemma main_cases a l f :
  (is_dir f (assets_dir a) = false
   ∧ main a l f = (inl (SystemExit_assets_dir (assets_dir a)), f))
  ∨ (is_dir f (assets_dir a) = true
     ∧ ((∃ e, build_manifest f l (excludes_of a) = inl e
              ∧ main a l f = (inl e, f))
        ∨ (build_manifest f l (excludes_of a) = inr []
           ∧ main a l f = (inl SystemExit_no_packs, f))
        ∨ (∃ packs r f1,
             build_manifest f l (excludes_of a) = inr packs ∧ packs ≠ []
             ∧ mkdir_parents [] (parent (output a)) f = (r, f1)
             ∧ match r with
               | Some e => main a l f = (inl e, f1)
               | None =>
                   match write_text (output a) (document packs) f1 with
                   | inl e => main a l f = (inl e, f1)
                   | inr f2 => main a l f = (inr (length packs), f2)
                   end
               end))).
Proof.
  unfold main. destruct (is_dir f (assets_dir a)); simpl; [right|by left].
  split; [done|].
  destruct (build_manifest f l (excludes_of a)) as [e|[|p ps]];
    [left; eauto|right; left; eauto|right; right].
  destruct (mkdir_parents [] (parent (output a)) f) as [r f1].
  exists (p :: ps), r, f1. split_and!; try done.
  destruct r; [done|]. by destruct (write_text _ _ f1).
Qed.

Lemma name_snoc (d : path) (n : str) : name (d ++ [n]) = n.
Proof. unfold name. by rewrite last_snoc. Qed.

Lemma parent_snoc (d : path) (n : str) : parent (d ++ [n]) = d.
Proof.
  unfold parent. rewrite length_app. simpl.
  replace (length d + 1 - 1) with (length d) by lia. by rewrite take_app_length.
Qed.

Lemma is_child_snoc (d : path) (n : str) : is_child d (d ++ [n]).
Proof. split; [by destruct d|apply parent_snoc]. Qed.

Lemma mkdir_parents_noop base todo f :
  (∀ k, k ≠ [] → k `prefix_of` todo → f !! (base ++ k) = Some NDir) →
  mkdir_parents base todo f = (None, f).
Proof.
  revert base. induction todo as [|c t IH]; intros base H; simpl; [done|].
  rewrite (H [c]); [|done|by apply prefix_cons, prefix_nil].
  apply IH. intros k Hk Hpre. rewrite <- app_assoc. simpl.
  apply H; [done|by apply prefix_cons].
Qed.

End WriteFacts.

(** ** The records built *)

Module RecordFacts.
Import Str Path Fs File Json Manifest Spec.
Import PathFacts FsFacts Discovery HashFacts BuildFacts MainFacts WriteFacts.

Lemma build_manifest_loop_built f ps acc packs :
  build_manifest_loop f ps acc = inr packs
  ↔ ∃ rs, packs = acc ++ rs ∧ Forall2 (built f) ps rs.
Proof.
  revert acc packs. induction ps as [|p ps IH]; intros acc packs; simpl.
  - split.
    + intros [= <-]. exists []. by rewrite app_nil_r.
    + intros (rs & -> & ->%Forall2_nil_inv_l). by rewrite app_nil_r.
  - destruct (sha256_hex f p) as [e|h] eqn:Hh.
    + split; [done|].
      intros (rs & _ & (r & rs' & (h & Hh' & _) & _ & _)%Forall2_cons_inv_l).
      unfold built in *. congruence.
    + rewrite IH. split.
      * intros (rs & -> & Hrs). exists (pack (name p) h :: rs).
        rewrite <- app_assoc. split; [done|].
        constructor; [|done]. by exists h.
      * intros (rs & -> & (r & rs' & (h' & Hh' & ->) & Hrs & ->)%Forall2_cons_inv_l).
        exists rs'. rewrite <- app_assoc. split; [|done].
        rewrite Hh in Hh'. by injection Hh' as <-.
Qed.

Lemma build_manifest_loop_first f ps acc e :
  build_manifest_loop f ps acc = inl e →
  ∃ pre q post, ps = pre ++ q :: post
                ∧ Forall (hashable f) pre ∧ sha256_hex f q = inl e.
Proof.
  revert acc. induction ps as [|p ps IH]; intros acc; simpl; [done|].
  destruct (sha256_hex f p) as [e'|h] eqn:Hh.
  - intros [= ->]. exists [], p, ps. by split_and!.
  - intros (pre & q & post & -> & Hpre & Hq)%IH.
    exists (p :: pre), q, post. split_and!; [done| |done].
    constructor; [by exists h|done].
Qed.

Lemma excludes_of_app d o ex extra :
  excludes_of (Args d o (ex ++ extra))
  = excludes_of (Args d o ex) ∪ list_to_set extra.
Proof. unfold excludes_of. simpl. rewrite list_to_set_app_L.
  by rewrite (assoc_L (∪)). Qed.

Lemma built_replace f d p data' ps rs :
  Forall (is_child d) ps → is_child d p →
  Forall2 (built f) ps rs →
  Forall2 (built (<[p := NFile data' None]> f)) ps
    (replace_record (name p) (SHA256.hex (SHA256.hash data')) <$> rs).
Proof.
  intros Hd Hp H. induction H as [|q r ps rs (h & Hh & ->) _ IH];
    [constructor|].
  apply Forall_cons in Hd as [Hq Hd]. rewrite fmap_cons.
  constructor; [|by apply IH].
  unfold replace_record. rewrite get_fileName.
  destruct (decide (Some (name q) = Some (name p))) as [[= E]|Hne].
  - assert (q = p) as ->.
    { by rewrite (is_child_split d q Hq), (is_child_split d p Hp), E. }
    eexists. split; [|done].
    apply sha256_hex_readable. apply lookup_insert_eq.
  - exists h. split; [|done]. rewrite <- Hh. apply sha256_hex_ext.
    apply lookup_insert_ne. intros ->. done.
Qed.

(** Two states of the assets directory with the same eligible entries give
    the same discovered files, in the same order. *)
Lemma iter_json_files_agree f g d l l' ex ex' :
  iterdir f d l → iterdir g d l' →
  (∀ p, is_child d p → eligible f ex p ↔ eligible g ex' p) →
  iter_json_files f l ex = iter_json_files g l' ex'.
Proof.
  intros Hl Hl' H.
  apply (StronglySorted_unique le); try apply iter_json_files_sorted.
  apply NoDup_Permutation.
  - by apply iter_json_files_NoDup, (iterdir_NoDup f d).
  - by apply iter_json_files_NoDup, (iterdir_NoDup g d).
  - intros p. rewrite !elem_of_iter_json_files.
    rewrite (iterdir_elem_of f d l p Hl), (iterdir_elem_of g d l' p Hl').
    assert (Hs : ∀ h e, eligible h e p → is_Some (h !! p)).
    { intros h e [Hf _]. unfold is_file in Hf. by destruct (h !! p). }
    split; intros [[_ Hc] He]; (split; [split; [|done]|]);
      try (by apply (H p Hc)); eapply Hs; by apply (H p Hc).
Qed.

End RecordFacts.

(** ** The reads of the hashing loop *)

Module ReadFacts.
Import Str Path Fs File Json Manifest Spec HashFacts.






End ReadFacts.

(** ** The layout of the document *)

Module LayoutFacts.
Import Str Path Fs File Json Manifest Spec.
Import HashFacts BuildFacts JsonFacts.

Lemma hexdigit_printable (n : N) : (n < 16)%N → printable (hexdigit n).
Proof.
  intros Hn. unfold printable, hexdigit. destruct (n <? 10)%N eqn:E; [|lia].
  apply N.ltb_lt in E. lia.
Qed.

Ltac ground_printable :=
  match goal with
  | |- Forall printable ?l => apply (bool_decide_unpack _); vm_compute; exact I
  end.

Lemma uescape_printable (n : N) : Forall printable (uescape n).
Proof.
  unfold uescape, hex4. apply Forall_cons_2; [by compute|].
  apply Forall_cons_2; [by compute|].
  repeat apply Forall_cons_2; [..|apply Forall_nil_2];
    apply hexdigit_printable, N.mod_lt; lia.
Qed.

Lemma escape_cp_printable (c : N) : Forall printable (escape_cp c).
Proof.
  unfold escape_cp.
  repeat (destruct (_ =? _)%N; [ground_printable|]).
  destruct ((32 <=? c) && (c <=? 126))%N eqn:E.
  - apply andb_true_iff in E as [H1%N.leb_le H2%N.leb_le].
    apply Forall_cons_2; [unfold printable; lia|apply Forall_nil_2].
  - destruct (c <? 65536)%N; [apply uescape_printable|].
    apply Forall_app. split; apply uescape_printable.
Qed.

Lemma encode_str_printable (s : str) : Forall printable (encode_str s).
Proof.
  unfold encode_str. apply Forall_cons_2; [by compute|].
  apply Forall_app. split; [|ground_printable].
  induction s as [|c s IH]; [constructor|].
  change (mbind escape_cp (c :: s)) with (escape_cp c ++ mbind escape_cp s).
  apply Forall_app. split; [apply escape_cp_printable|done].
Qed.

Lemma newlines_app (s t : str) : newlines (s ++ t) = newlines s + newlines t.
Proof. unfold newlines. by rewrite filter_app, length_app. Qed.

Lemma newlines_printable (s : str) : Forall printable s → newlines s = 0.
Proof.
  unfold newlines. induction 1 as [|c s Hc _ IH]; [done|].
  rewrite filter_cons_False; [done|]. unfold printable in Hc. lia.
Qed.

Lemma is_lower_hex_printable (c : N) : is_lower_hex c → printable c.
Proof. unfold is_lower_hex, printable. lia. Qed.

Lemma layout_printable (s : str) : Forall printable s → Forall layout_char s.
Proof. intros H. eapply Forall_impl; [exact H|]. by left. Qed.

Lemma record_text_layout (r : value) :
  hex_pack r →
  newlines (record_text r) = 3 ∧ Forall layout_char (record_text r).
Proof.
  intros (name & hash & -> & Hh). unfold record_text.
  rewrite get_fileName, get_sha256.
  assert (Hq : Forall printable (quoted hash)).
  { unfold quoted. apply Forall_cons_2; [by compute|].
    apply Forall_app. split; [|ground_printable].
    eapply Forall_impl; [done|]. apply is_lower_hex_printable. }
  pose proof (encode_str_printable name) as Hn.
  revert Hq Hn. generalize (quoted hash) (encode_str name). intros qh en Hq Hn.
  split.
  - rewrite !newlines_app, (newlines_printable qh Hq),
      (newlines_printable en Hn). reflexivity.
  - repeat (apply Forall_app; split);
      first [by apply layout_printable
            |apply (bool_decide_unpack _); vm_compute; exact I].
Qed.

Lemma records_text_layout (rs : list value) :
  Forall hex_pack rs → rs ≠ [] →
  newlines (records_text rs) + 1 = 4 * length rs
  ∧ Forall layout_char (records_text rs).
Proof.
  intros H Hne. destruct H as [|r rs Hr Hrs]; [done|]. unfold records_text.
  destruct (record_text_layout r Hr) as [N1 L1].
  rewrite newlines_app, N1.
  assert (G : newlines (mbind (λ r', ustr "," ++ [10%N] ++ record_text r') rs)
              = 4 * length rs
              ∧ Forall layout_char
                  (mbind (λ r', ustr "," ++ [10%N] ++ record_text r') rs)).
  { clear -Hrs. induction Hrs as [|r' rs Hr' _ [IH1 IH2]]; [done|].
    change (mbind ?g (r' :: rs)) with (g r' ++ mbind g rs).
    destruct (record_text_layout r' Hr') as [N1 L1]. split.
    - rewrite !newlines_app, IH1, N1. simpl length.
      change (newlines (ustr ",")) with 0. change (newlines [10%N]) with 1.
      lia.
    - apply Forall_app. split; [|done].
      apply Forall_app. split;
        [apply (bool_decide_unpack _); vm_compute; exact I|].
      apply Forall_app. split; [|done].
      apply (bool_decide_unpack _); vm_compute; exact I. }
  destruct G as [G1 G2]. rewrite G1. simpl length. split; [lia|].
  by apply Forall_app.
Qed.

End LayoutFacts.

(** ** Outcomes, effects and reruns *)

Import WriteFacts RecordFacts ReadFacts LayoutFacts.




(** X3: the manifest of a successful run is complete and sound.  The
    count reported is the number of records and is at least one, and a name
    has a record exactly when the entry of that name in the assets
    directory is a regular file, has a non-empty stem followed by ".json" in
    any letter case, and is not excluded. *)
Theorem manifest_complete (a : args) (listing : list path) (f : fs)
    (n : nat) (f' : fs) :
  iterdir f (assets_dir a) listing →
  main a listing f = (inr n, f') →
  ∃ packs,
    build_manifest f listing (excludes_of a) = inr packs
    ∧ n = length packs ∧ 0 < n
    ∧ ∀ nm, Some nm ∈ fileNames packs
            ↔ is_file f (assets_dir a ++ [nm]) = true
              ∧ json_name nm ∧ nm ∉ excludes_of a.
Proof.
  intros Hl (packs & f1 & _ & Hb & Hne & -> & _)%main_inr.
  exists packs. split_and!; [done..|by destruct packs; simpl; [|lia]|].
  intros nm.
  rewrite (record_for_fileNames f _ _ (build_manifest_inr _ _ _ _ Hb)).
  split.
  - intros (? & [= <-] & (p & -> & Hp)%list_elem_of_fmap)%list_elem_of_fmap.
    apply elem_of_iter_json_files in Hp as [Hp (Hf & Hs & He)].
    apply (iterdir_elem_of _ _ _ _ Hl) in Hp as [_ Hc].
    apply is_child_split in Hc. rewrite <- Hc.
    split_and!; [done| |done]. by apply suffix_json.
  - intros (Hf & Hj & He). apply list_elem_of_fmap_2.
    apply list_elem_of_fmap. exists (assets_dir a ++ [nm]).
    split; [by rewrite name_snoc|].
    apply elem_of_iter_json_files. split.
    + apply (iterdir_elem_of _ _ _ _ Hl). split; [|apply is_child_snoc].
      unfold is_file in Hf. destruct (f !! _); [eauto|done].
    + unfold eligible, suffix. rewrite name_snoc.
      split_and!; [done| |done]. by apply suffix_json.
Qed.

Lemma manifest_complete_witness :
  iterdir fs_mixed (assets_dir args_default) (children fs_mixed assets)
  ∧ (main args_default (children fs_mixed assets) fs_mixed).1 = inr 4
  ∧ ∃ packs,
      build_manifest fs_mixed (children fs_mixed assets)
        (excludes_of args_default) = inr packs
      ∧ 4 = length packs ∧ 0 < 4
      ∧ ∀ nm, Some nm ∈ fileNames packs
              ↔ is_file fs_mixed (assets_dir args_default ++ [nm]) = true
                ∧ json_name nm ∧ nm ∉ excludes_of args_default.
Proof.
  assert (H1 : iterdir fs_mixed (assets_dir args_default)
                 (children fs_mixed assets))
    by (unfold iterdir; reflexivity).
  assert (H2 : (main args_default (children fs_mixed assets) fs_mixed).1
               = inr 4)
    by (vm_compute; reflexivity).
  split_and!; [done..|].
  apply (manifest_complete args_default (children fs_mixed assets) fs_mixed 4
           (main args_default (children fs_mixed assets) fs_mixed).2);
    [done|].
  rewrite <- H2. apply surjective_pairing.
Defined.





(** X6: running again after a successful run changes nothing and reports
    the same count, as long as the output path is not itself an eligible
    asset (an entry of the assets directory with a [.json] name that is not
    excluded). *)
Theorem rerun_stable (a : args) (l l' : list path) (f f' : fs) (n : nat) :
  iterdir f (assets_dir a) l →
  main a l f = (inr n, f') →
  iterdir f' (assets_dir a) l' →
  ¬ (is_child (assets_dir a) (output a)
     ∧ lower (suffix (output a)) = ustr ".json"
     ∧ name (output a) ∉ excludes_of a) →
  main a l' f' = (inr n, f').
Proof.
  intros Hl Hm Hl' Hout.
  destruct (main_cases a l f)
    as [[Hd E]|[Hd [(e' & Hb & E)|[[Hb E]|(packs & r & f1 & Hb & Hne & Hmk & H)]]]];
    try congruence.
  destruct r as [e|]; [congruence|].
  destruct (write_text (output a) (document packs) f1) as [e|f2] eqn:Hw;
    [congruence|].
  rewrite Hm in H. injection H as -> ->.
  apply write_text_inr in Hw as (Ho & Hf & ->).
  pose proof Hmk as [H1 H2]%mkdir_parents_spec.
  set (f' := <[output a:=NFile (utf8 (document packs)) None]> f1) in *.
  (* entries other than the output that exist in [f] are unchanged *)
  assert (Hkeep : ∀ q, q ≠ output a → is_file f' q = is_file f q).
  { intros q Hq. unfold is_file, f'. rewrite lookup_insert_ne by done.
    destruct (H1 q) as [->|(-> & -> & _)]; done. }
  assert (Hsame : ∀ q, q ≠ output a → is_Some (f !! q) → f' !! q = f !! q).
  { intros q Hq [x Hx]. unfold f'. rewrite lookup_insert_ne by done.
    destruct (H1 q) as [->|(Hn & _)]; [done|congruence]. }
  assert (Hdisc : iter_json_files f' l' (excludes_of a)
                  = iter_json_files f l (excludes_of a)).
  { apply (iter_json_files_ext f' f (assets_dir a)); [done..|].
    intros p Hc Hs He. apply Hkeep. intros ->. by apply Hout. }
  assert (Hnot : ∀ p, p ∈ iter_json_files f l (excludes_of a) →
                      p ≠ output a ∧ is_Some (f !! p)).
  { intros p [Hp (Hfile & Hs & He)]%elem_of_iter_json_files.
    apply (iterdir_elem_of _ _ _ _ Hl) in Hp as [? Hc].
    split; [|done]. intros ->. by apply Hout. }
  assert (Hb' : build_manifest f' l' (excludes_of a) = inr packs).
  { unfold build_manifest in *. rewrite Hdisc, <- Hb.
    apply build_manifest_loop_ext. intros p [??]%Hnot. by apply Hsame. }
  assert (Hd' : is_dir f' (assets_dir a) = true).
  { unfold is_dir in *. destruct (assets_dir a) as [|c d] eqn:Ed; [done|].
    destruct (f !! (c :: d)) as [[| |]|] eqn:E; try done.
    rewrite Hsame; [by rewrite E| |by rewrite E].
    intros Eo. rewrite (mkdir_parents_output _ _ _ _ Hmk Ho), <- Eo, E in Hf.
    destruct Hf as [Hf|(? & ? & Hf)]; congruence. }
  assert (Hmk' : mkdir_parents [] (parent (output a)) f' = (None, f')).
  { apply mkdir_parents_noop. intros k Hk Hpre. simpl. unfold f'.
    rewrite lookup_insert_ne.
    - by apply (H2 k).
    - intros <-. by apply (parent_not_prefix (output a)). }
  assert (Hw' : write_text (output a) (document packs) f' = inr f').
  { apply write_text_inr. split_and!; [done| |].
    - right. unfold f'. rewrite lookup_insert_eq. eauto.
    - unfold f'. by rewrite insert_insert_eq. }
  unfold main. rewrite Hd', Hb', Hmk', Hw'. simpl. by destruct packs.
Qed.

Lemma rerun_stable_witness :
  let f1 := (main args_default (children fs_two assets) fs_two).2 in
  (main args_default (children fs_two assets) fs_two).1 = inr 2
  ∧ entry "packs.json" ∈ children f1 assets
  ∧ main args_default (children f1 assets) f1 = (inr 2, f1).
Proof.
  intros f1.
  assert (H1 : iterdir fs_two (assets_dir args_default)
                 (children fs_two assets))
    by (unfold iterdir; reflexivity).
  assert (H2 : (main args_default (children fs_two assets) fs_two).1 = inr 2)
    by (vm_compute; reflexivity).
  assert (H3 : main args_default (children fs_two assets) fs_two
               = (inr 2, f1)).
  { rewrite <- H2. apply surjective_pairing. }
  assert (H4 : iterdir f1 (assets_dir args_default) (children f1 assets))
    by (unfold iterdir; reflexivity).
  split_and!; [done| |].
  - apply (bool_decide_unpack _). vm_compute. exact I.
  - apply (rerun_stable args_default _ _ fs_two f1 2 H1 H3 H4).
    intros (_ & _ & H). apply H.
    apply (bool_decide_unpack _). vm_compute. exact I.
Defined.

(** X7: when a run fails on reading, the file it reports is a discovered
    file that cannot be hashed, and it is the first such file in the order
    of names. *)
Theorem first_unreadable_reported (a : args) (listing : list path) (f : fs)
    (q : path) :
  iterdir f (assets_dir a) listing →
  (main a listing f).1 = inl (OSError_read q) →
  q ∈ iter_json_files f listing (excludes_of a)
  ∧ ¬ hashable f q
  ∧ ∀ p, p ∈ iter_json_files f listing (excludes_of a) → ¬ hashable f p →
         p = q ∨ name_lt (name q) (name p).
Proof.
  intros Hl Hm.
  assert (Hb : build_manifest f listing (excludes_of a) = inl (OSError_read q)).
  { destruct (main_cases a listing f)
      as [[Hd E]|[Hd [(e' & Hb & E)|[[Hb E]|(packs & r & f1 & Hb & Hne & Hmk & H)]]]];
      try (rewrite E in Hm; simpl in Hm; congruence).
    destruct r as [e|].
    - rewrite H in Hm. simpl in Hm.
      apply mkdir_parents_spec in Hmk as [_ (k & x & _ & _ & He & _)].
      congruence.
    - destruct (write_text (output a) (document packs) f1) as [e|f2] eqn:Hw;
        rewrite H in Hm; simpl in Hm; [|done].
      apply write_text_inl in Hw. congruence. }
  apply build_manifest_loop_first in Hb as (pre & q' & post & Hps & Hpre & Hq).
  pose proof (sha256_hex_inl _ _ _ Hq) as [= ->].
  pose proof (iter_json_files_names_sorted f _ _ (excludes_of a) Hl) as Hs.
  rewrite Hps in *.
  split_and!.
  - apply elem_of_app. right. left.
  - intros [h Hh]. congruence.
  - intros p Hp Hnh. apply elem_of_app in Hp as [Hp|Hp].
    + rewrite Forall_forall in Hpre. by destruct Hnh; apply Hpre.
    + apply elem_of_cons in Hp as [->|Hp]; [by left|right].
      rewrite fmap_app, fmap_cons in Hs.
      apply StronglySorted_app_1_r, StronglySorted_inv in Hs as [_ Hs].
      rewrite Forall_forall in Hs. apply Hs. by apply list_elem_of_fmap_2.
Qed.

Lemma first_unreadable_reported_witness :
  iterdir fs_race (assets_dir args_default) (children fs_race assets)
  ∧ (main args_default (children fs_race assets) fs_race).1
    = inl (OSError_read (entry "b.json"))
  ∧ (entry "b.json" ∈ iter_json_files fs_race (children fs_race assets)
                        (excludes_of args_default)).
Proof.
  assert (H1 : iterdir fs_race (assets_dir args_default)
                 (children fs_race assets))
    by (unfold iterdir; reflexivity).
  assert (H2 : (main args_default (children fs_race assets) fs_race).1
               = inl (OSError_read (entry "b.json")))
    by (vm_compute; reflexivity).
  split_and!; [done..|].
  exact (proj1 (first_unreadable_reported _ _ _ _ H1 H2)).
Defined.

(** X8: passing more names to [--exclude] removes the files of those names
    from the discovered files, the others keeping their order, and removes
    exactly their records from the manifest, the other records staying as
    they were. *)
Theorem exclude_removes_only_named (a : args) (extra : list str)
    (listing : list path) (f : fs) (packs : list value) :
  build_manifest f listing (excludes_of a) = inr packs →
  let a' := Args (assets_dir a) (output a) (exclude a ++ extra) in
  iter_json_files f listing (excludes_of a')
  = filter (λ p, name p ∉ extra) (iter_json_files f listing (excludes_of a))
  ∧ build_manifest f listing (excludes_of a') = inr (filter (kept extra) packs).
Proof.
  intros Hb a'.
  assert (Hd : iter_json_files f listing (excludes_of a')
    = filter (λ p, name p ∉ extra) (iter_json_files f listing (excludes_of a))).
  { unfold a'. destruct a as [d o ex]. simpl. rewrite excludes_of_app.
    unfold iter_json_files. rewrite !iter_json_files_loop_filter.
    rewrite list_filter_filter. apply list_filter_iff. intros p.
    unfold eligible. rewrite not_elem_of_union, elem_of_list_to_set. tauto. }
  split; [done|].
  unfold build_manifest in *. rewrite Hd.
  apply build_manifest_loop_built in Hb as (rs & -> & Hrs).
  apply build_manifest_loop_built. exists (filter (kept extra) rs).
  split; [done|]. eapply Forall2_filter; [|done].
  intros p r (h & _ & ->). unfold kept. by rewrite get_fileName.
Qed.

Lemma exclude_removes_only_named_witness :
  build_manifest fs_mixed (children fs_mixed assets)
    (excludes_of args_default) = inr packs_mixed
  ∧ build_manifest fs_mixed (children fs_mixed assets)
      (excludes_of args_exclude_a)
    = inr (filter (kept [ustr "a.json"]) packs_mixed)
  ∧ length (filter (kept [ustr "a.json"]) packs_mixed) = 3.
Proof.
  assert (H : build_manifest fs_mixed (children fs_mixed assets)
                (excludes_of args_default) = inr packs_mixed)
    by (vm_compute; reflexivity).
  split_and!; [done| |vm_compute; reflexivity].
  exact (proj2 (exclude_removes_only_named args_default [ustr "a.json"]
                  _ _ _ H)).
Defined.


(** X10: the document of a successful run with [n] records has [4n + 4]
    lines and is made of printable ASCII characters and newlines only,
    whatever characters the file names contain. *)
Theorem document_layout (a : args) (listing : list path) (f : fs)
    (n : nat) (f' : fs) :
  main a listing f = (inr n, f') →
  ∃ packs,
    build_manifest f listing (excludes_of a) = inr packs
    ∧ f' !! output a = Some (NFile (utf8 (document packs)) None)
    ∧ newlines (document packs) = 4 * n + 4
    ∧ Forall layout_char (document packs).
Proof.
  intros (packs & f1 & _ & Hb & Hne & -> & _ & ->)%main_inr.
  exists packs. split_and!; [done|apply lookup_insert_eq|..].
  - assert (Hp : Forall hex_pack packs).
    { apply build_manifest_inr in Hb. clear -Hb.
      induction Hb as [|p r ps rs Hr _ IH]; constructor; [|done].
      by apply (record_for_hex_pack f p). }
    rewrite (document_text packs Hp Hne).
    destruct (records_text_layout packs Hp Hne) as [N1 _].
    unfold manifest_text. rewrite !newlines_app.
    change (newlines (ustr "{")) with 0. change (newlines [10%N]) with 1.
    change (newlines (ustr "  ")) with 0.
    change (newlines (quoted (ustr "packs"))) with 0.
    change (newlines (ustr ": [")) with 0.
    change (newlines (ustr "  ]")) with 0.
    change (newlines (ustr "}")) with 0. lia.
  - assert (Hp : Forall hex_pack packs).
    { apply build_manifest_inr in Hb. clear -Hb.
      induction Hb as [|p r ps rs Hr _ IH]; constructor; [|done].
      by apply (record_for_hex_pack f p). }
    rewrite (document_text packs Hp Hne).
    destruct (records_text_layout packs Hp Hne) as [_ L].
    unfold manifest_text. revert L. generalize (records_text packs).
    intros t L.
    repeat (apply Forall_app; split);
      first [assumption|apply (bool_decide_unpack _); vm_compute; exact I].
Qed.

Lemma document_layout_witness :
  (main args_default (children fs_two assets) fs_two).1 = inr 2
  ∧ ∃ packs,
      build_manifest fs_two (children fs_two assets)
        (excludes_of args_default) = inr packs
      ∧ (main args_default (children fs_two assets) fs_two).2
          !! output args_default
        = Some (NFile (utf8 (document packs)) None)
      ∧ newlines (document packs) = 4 * 2 + 4
      ∧ Forall layout_char (document packs).
Proof.
  assert (H : (main args_default (children fs_two assets) fs_two).1 = inr 2)
    by (vm_compute; reflexivity).
  split; [done|].
  apply (document_layout args_default (children fs_two assets) fs_two 2).
  rewrite <- H. apply surjective_pairing.
Defined.

(** X11: giving a discovered file new, readable content changes the
    manifest in the record of that file only: the records built afterwards
    are the old ones with the digest of that one name replaced. *)
Theorem content_change_is_local (f : fs) (d : path) (l l' : list path)
    (excludes : gset str) (packs : list value) (p : path) (data' : bytes) :
  iterdir f d l →
  build_manifest f l excludes = inr packs →
  p ∈ iter_json_files f l excludes →
  iterdir (<[p := NFile data' None]> f) d l' →
  build_manifest (<[p := NFile data' None]> f) l' excludes
  = inr (replace_record (name p) (SHA256.hex (SHA256.hash data')) <$> packs).
Proof.
  intros Hl Hb Hp Hl'.
  assert (Hpf : is_file f p = true ∧ is_child d p).
  { apply elem_of_iter_json_files in Hp as [Hin (Hf & _)].
    by apply (iterdir_elem_of _ _ _ _ Hl) in Hin as [_ ?]. }
  destruct Hpf as [Hpf Hpc].
  assert (Hdisc : iter_json_files (<[p := NFile data' None]> f) l' excludes
                  = iter_json_files f l excludes).
  { apply (iter_json_files_ext _ f d); [done..|].
    intros q _ _ _. unfold is_file.
    destruct (decide (q = p)) as [->|Hq].
    - rewrite lookup_insert_eq. by unfold is_file in Hpf.
    - by rewrite lookup_insert_ne. }
  unfold build_manifest in *. rewrite Hdisc.
  apply build_manifest_loop_built in Hb as (rs & -> & Hrs).
  apply build_manifest_loop_built. eexists. split; [done|].
  apply (built_replace f d); [|done..].
  by apply (iter_json_files_children f d l).
Qed.

Lemma content_change_is_local_witness :
  let g := <[entry "a.json" := NFile x_object None]> fs_two in
  build_manifest fs_two (children fs_two assets) (excludes_of args_default)
  = inr packs_two
  ∧ build_manifest g (children g assets) (excludes_of args_default)
    = inr [ pack (ustr "a.json") sha_x_object;
            pack (ustr "b.json") sha_x_object ].
Proof.
  intros g.
  assert (H1 : iterdir fs_two assets (children fs_two assets))
    by (unfold iterdir; reflexivity).
  assert (H2 : build_manifest fs_two (children fs_two assets)
                 (excludes_of args_default) = inr packs_two)
    by (vm_compute; reflexivity).
  assert (H3 : entry "a.json" ∈ iter_json_files fs_two
                 (children fs_two assets) (excludes_of args_default)).
  { apply (bool_decide_unpack _). vm_compute. exact I. }
  assert (H4 : iterdir g assets (children g assets))
    by (unfold iterdir; reflexivity).
  split; [done|].
  etrans; [exact (content_change_is_local fs_two assets _ _ _ packs_two
                    (entry "a.json") x_object H1 H2 H3 H4)|].
  vm_compute. reflexivity.
Defined.

(** X12: the manifest depends on the eligible files only.  Two file
    systems that agree on every entry of the assets directory that is an
    eligible file in one of them give the same discovered files and the
    same outcome of [build_manifest], records or error: directories, files
    with another extension, excluded files and entries elsewhere have no
    influence. *)
Theorem manifest_depends_on_eligible_only (f g : fs) (d : path)
    (l l' : list path) (ex : gset str) :
  iterdir f d l → iterdir g d l' →
  (∀ p, is_child d p → lower (suffix p) = ustr ".json" → name p ∉ ex →
        is_file f p = true ∨ is_file g p = true → f !! p = g !! p) →
  iter_json_files f l ex = iter_json_files g l' ex
  ∧ build_manifest f l ex = build_manifest g l' ex.
Proof.
  intros Hl Hl' H.
  assert (E : iter_json_files f l ex = iter_json_files g l' ex).
  { apply (iter_json_files_agree f g d); [done..|].
    intros p Hc. unfold eligible.
    split; intros (Hf & Hs & Hn); (split_and!; [|done..]).
    - unfold is_file. rewrite <- (H p Hc Hs Hn); [done|by left].
    - unfold is_file. rewrite (H p Hc Hs Hn); [done|by right]. }
  split; [done|].
  unfold build_manifest. rewrite <- E. apply build_manifest_loop_ext.
  intros p Hp. pose proof Hp as Hp'.
  apply elem_of_iter_json_files in Hp as [Hin (Hf & Hs & Hn)].
  apply (iterdir_elem_of f d l p Hl) in Hin as [_ Hc].
  apply (H p Hc Hs Hn). by left.
Qed.

Lemma manifest_depends_on_eligible_only_witness :
  let g := <[entry "dir.json" := NDir]>
             (<[entry "notes.txt" := NFile empty_object None]> fs_two) in
  build_manifest g (children g assets) (excludes_of args_default)
  = inr packs_two.
Proof.
  intros g.
  assert (H1 : iterdir fs_two assets (children fs_two assets))
    by (unfold iterdir; reflexivity).
  assert (H2 : iterdir g assets (children g assets))
    by (unfold iterdir; reflexivity).
  assert (H3 : ∀ p, is_child assets p → lower (suffix p) = ustr ".json" →
                 name p ∉ excludes_of args_default →
                 is_file fs_two p = true ∨ is_file g p = true →
                 fs_two !! p = g !! p).
  { intros p _ Hs _ Hf. unfold g.
    destruct (decide (p = entry "dir.json")) as [->|Hd].
    { by destruct Hf as [Hf|Hf]; vm_compute in Hf. }
    rewrite lookup_insert_ne by done.
    destruct (decide (p = entry "notes.txt")) as [->|Hn].
    { by vm_compute in Hs. }
    by rewrite lookup_insert_ne. }
  etrans; [symmetry; exact (proj2 (manifest_depends_on_eligible_only
                                     fs_two g assets _ _ _ H1 H2 H3))|].
  vm_compute. reflexivity.
Defined.

(** X13: excluding a name has the effect of the file not being there.
    The discovered files and the outcome of [build_manifest] after an entry
    of the assets directory is removed are those of the directory as it was
    with the name of the entry added to the excluded names. *)
Theorem removing_is_excluding (f : fs) (d : path) (l l' : list path)
    (ex : gset str) (p : path) :
  iterdir f d l → iterdir (delete p f) d l' → is_child d p →
  iter_json_files (delete p f) l' ex = iter_json_files f l (ex ∪ {[name p]})
  ∧ build_manifest (delete p f) l' ex = build_manifest f l (ex ∪ {[name p]}).
Proof.
  intros Hl Hl' Hp.
  assert (E : iter_json_files (delete p f) l' ex
              = iter_json_files f l (ex ∪ {[name p]})).
  { apply (iter_json_files_agree _ _ d); [done..|].
    intros q Hq. unfold eligible, is_file.
    rewrite not_elem_of_union, not_elem_of_singleton.
    destruct (decide (q = p)) as [->|Hne].
    - rewrite lookup_delete_eq.
      split; [by intros [? _]|by intros (_ & _ & _ & ?)].
    - rewrite lookup_delete_ne by done.
      assert (name q ≠ name p); [|tauto].
      intros En. apply Hne.
      rewrite (is_child_split d q Hq), (is_child_split d p Hp). by rewrite En. }
  split; [done|].
  unfold build_manifest. rewrite E. apply build_manifest_loop_ext.
  intros q Hq. apply elem_of_iter_json_files in Hq as [_ (_ & _ & Hn)].
  apply lookup_delete_ne. intros ->. apply Hn, elem_of_union_r.
  by apply elem_of_singleton.
Qed.

Lemma removing_is_excluding_witness :
  let g := delete (entry "a.json") fs_two in
  build_manifest g (children g assets) (excludes_of args_default)
  = inr [pack (ustr "b.json") sha_x_object].
Proof.
  intros g.
  assert (H1 : iterdir fs_two assets (children fs_two assets))
    by (unfold iterdir; reflexivity).
  assert (H2 : iterdir g assets (children g assets))
    by (unfold iterdir; reflexivity).
  assert (H3 : is_child assets (entry "a.json")) by (split; [done|reflexivity]).
  etrans; [exact (proj2 (removing_is_excluding fs_two assets _ _
                           (excludes_of args_default) _ H1 H2 H3))|].
  vm_compute. reflexivity.
Defined.
